(** * dsent: a generic entity wrapper over a transactional document store

    Shallow embedding of the Go package [dsent] (the [DSEnt] wrapper):
    keys and their comparison, the batch and single-entity operations, and
    the read-modify-write [UpdateTx] protocol, with the properties the
    specification states about them. *)

From Stdlib Require Import ZArith String List Bool Lia.
From stdpp Require Import base option list strings gmap.
Import ListNotations.

Local Open Scope Z_scope.
Local Open Scope string_scope.
Local Open Scope list_scope.

(** ** Keys

    [datastore.Key] is a struct [{Kind; ID; Name; Parent; Namespace}] whose
    [Parent] is a nullable pointer to another key.  Keys handed to the
    wrapper are non-nil; a nil [Parent] is [None]. *)

#[local] Unset Elimination Schemes.
Inductive Key : Type :=
  mkKey (kind : string) (id : Z) (name : string)
        (parent : option Key) (namespace : string).
#[local] Set Elimination Schemes.

Definition Kind (k : Key) : string := let 'mkKey x _ _ _ _ := k in x.
Definition ID (k : Key) : Z := let 'mkKey _ x _ _ _ := k in x.
Definition Name (k : Key) : string := let 'mkKey _ _ x _ _ := k in x.
Definition Parent (k : Key) : option Key := let 'mkKey _ _ _ x _ := k in x.
Definition Namespace (k : Key) : string := let 'mkKey _ _ _ _ x := k in x.

(** [datastore.IDKey] and [datastore.NameKey]: a key with an empty
    namespace. *)
Definition IDKey (kind : string) (id : Z) (parent : option Key) : Key :=
  mkKey kind id "" parent "".
Definition NameKey (kind name : string) (parent : option Key) : Key :=
  mkKey kind 0 name parent "".

(** Structural induction that goes through the parent pointer. *)
Fixpoint Key_chain_rect (P : Key -> Type)
    (Hroot : forall kd i n ns, P (mkKey kd i n None ns))
    (Hstep : forall kd i n p ns, P p -> P (mkKey kd i n (Some p) ns))
    (k : Key) {struct k} : P k :=
  match k with
  | mkKey kd i n None ns => Hroot kd i n ns
  | mkKey kd i n (Some p) ns =>
      Hstep kd i n p ns (Key_chain_rect P Hroot Hstep p)
  end.

Definition Key_chain_ind (P : Key -> Prop) := Key_chain_rect P.

(** [SetNS]: the loop writes the namespace into the key and then into each
    parent until the parent pointer is nil. *)
Fixpoint SetNS (key : Key) (ns : string) {struct key} : Key :=
  match key with
  | mkKey kd i n None _ => mkKey kd i n None ns
  | mkKey kd i n (Some next) _ => mkKey kd i n (Some (SetNS next ns)) ns
  end.

(** [cmpKey]: one iteration of the loop compares the four fields of the
    current level, then both cursors move to their parents. *)
Fixpoint cmpKey (a b : Key) {struct a} : bool :=
  match a, b with
  | mkKey lkind lid lname lparent lns, mkKey rkind rid rname rparent rns =>
      if negb (String.eqb lns rns) then false
      else if negb (String.eqb lkind rkind) then false
      else if negb (Z.eqb lid rid) then false
      else if negb (String.eqb lname rname) then false
      else match lparent, rparent with
           | None, None => true
           | None, Some _ => false
           | Some _, None => false
           | Some left', Some right' => cmpKey left' right'
           end
  end.

(** The key followed by its ancestors, leaf first. *)
Fixpoint ancestors (k : Key) : list Key :=
  match k with
  | mkKey _ _ _ None _ => [k]
  | mkKey _ _ _ (Some p) _ => k :: ancestors p
  end.

(** Two levels agree when the four compared fields are identical. *)
Definition same_level (a b : Key) : Prop :=
  Namespace a = Namespace b /\ Kind a = Kind b /\
  ID a = ID b /\ Name a = Name b.

Definition depth (k : Key) : nat := length (ancestors k).

(** Every level of the chain carries namespace [ns]. *)
Definition uniform_ns (ns : string) (k : Key) : Prop :=
  Forall (fun l => Namespace l = ns) (ancestors k).

(** ** Errors

    A Go [error] value is nullable: [option error], with [None] for nil.
    The package's sentinels are constructors; [MultiError] is the client's
    slice of per-element errors (a nil entry for an element that
    succeeded); [Wrapf] is an error built with [fmt.Errorf] and the [%w]
    verb; [ErrorNew] is any other error, identified by its message. *)

#[local] Unset Elimination Schemes.
Inductive error : Type :=
  | ErrKeyChanged
  | ErrUpdateAbort
  | ErrNoSuchEntity
  | ErrConcurrentTransaction
  | MultiError (merr : list (option error))
  | Wrapf (msg : string) (cause : error)
  | ErrorNew (msg : string).
#[local] Set Elimination Schemes.

Definition ErrNotFound : error := ErrNoSuchEntity.

(** [err == target] for a comparable [target]: the same sentinel, or the
    same message; a [MultiError] is a slice and never equal to one. *)
Fixpoint error_eqb (a b : error) {struct a} : bool :=
  match a, b with
  | ErrKeyChanged, ErrKeyChanged => true
  | ErrUpdateAbort, ErrUpdateAbort => true
  | ErrNoSuchEntity, ErrNoSuchEntity => true
  | ErrConcurrentTransaction, ErrConcurrentTransaction => true
  | Wrapf m1 c1, Wrapf m2 c2 => String.eqb m1 m2 && error_eqb c1 c2
  | ErrorNew m1, ErrorNew m2 => String.eqb m1 m2
  | _, _ => false
  end.

(** [errors.Is]: follows the [Unwrap] chain of [err] looking for [target];
    a nil [err] matches nothing. *)
Fixpoint unwrap_Is (err target : error) {struct err} : bool :=
  if error_eqb err target then true
  else match err with
       | Wrapf _ cause => unwrap_Is cause target
       | _ => false
       end.

Definition errors_Is (err : option error) (target : error) : bool :=
  match err with
  | None => false
  | Some e => unwrap_Is e target
  end.

(** ** Outcomes, events and the call monad

    A call either returns or panics (an index out of range, a nil function
    value).  The wrapper keeps no state of its own: everything it touches
    (the entities behind their pointers, the store, the open transactions)
    is the world [W], which only the entity methods, the callbacks and the
    client change.  Each such outside call is recorded as an event together
    with what it returned. *)

Inductive Outcome (A : Type) : Type :=
  | Return (a : A)
  | Panic.
Arguments Return {A} a.
Arguments Panic {A}.

(** The three kinds of mutation the wrapper builds; [src] is the entity
    pointer handed to [datastore.NewInsert] and its siblings. *)
Inductive Mutation (T : Type) : Type :=
  | NewInsert (k : Key) (src : T)
  | NewUpdate (k : Key) (src : T)
  | NewUpsert (k : Key) (src : T).
Arguments NewInsert {T} k src.
Arguments NewUpdate {T} k src.
Arguments NewUpsert {T} k src.

Definition is_insert {T} (m : Mutation T) : bool :=
  match m with NewInsert _ _ => true | _ => false end.

Definition mutation_key {T} (m : Mutation T) : Key :=
  match m with NewInsert k _ | NewUpdate k _ | NewUpsert k _ => k end.

Definition mutation_src {T} (m : Mutation T) : T :=
  match m with NewInsert _ o | NewUpdate _ o | NewUpsert _ o => o end.

(** The [Object] interface: [BuildKey] reads the entity behind the pointer,
    so it takes the world; it returns a non-nil key or an error.  [LoadKey]
    is the optional [datastore.KeyLoader] hook: [None] when the dynamic
    type of the value does not implement it. *)
Class Object (T W : Type) : Type := {
  BuildKey : T -> string -> W -> (Key + error) * W;
  LoadKey : T -> option (Key -> W -> option error * W)
}.

(** What the wrapper uses of [datastore.Client], [datastore.Transaction]
    and [datastore.Commit]. *)
Class Client (T W Tx PendingKey Commit : Type) : Type := {
  client_Get : Key -> T -> W -> option error * W;
  tx_Get : Tx -> Key -> T -> W -> option error * W;
  tx_GetMulti : Tx -> list Key -> list T -> W -> option error * W;
  tx_Mutate : Tx -> list (Mutation T) -> W -> (list PendingKey + error) * W;
  tx_DeleteMulti : Tx -> list Key -> W -> option error * W;
  newTransaction : W -> (Tx + error) * W;
  tx_Commit : Tx -> W -> (Commit + error) * W;
  tx_Rollback : Tx -> W -> unit * W;
  commit_Key : Commit -> PendingKey -> Key;
  attempts : nat
}.

Record DSEnt : Type := NewDSEnt { namespace : string; kind : string }.

Section Wrapper.

Context {T W Tx PendingKey Commit : Type}.
Context `{!Object T W} `{!Client T W Tx PendingKey Commit}.
Variable db : DSEnt.

Inductive Event : Type :=
  | EvBuildKey (obj : T) (ns : string) (r : Key + error)
  | EvLoadKey (obj : T) (key : Key) (r : option error)
  | EvCreateFunc (obj : T) (r : T * option error)
  | EvUpdateFunc (obj : T) (r : T * option error)
  | EvClientGet (key : Key) (dst : T) (r : option error)
  | EvTxGet (tx : Tx) (key : Key) (dst : T) (r : option error)
  | EvTxGetMulti (tx : Tx) (keys : list Key) (dst : list T)
                 (r : option error)
  | EvTxMutate (tx : Tx) (muts : list (Mutation T))
               (r : list PendingKey + error)
  | EvTxDeleteMulti (tx : Tx) (keys : list Key) (r : option error)
  | EvNewTransaction (r : Tx + error)
  | EvCommit (tx : Tx) (r : Commit + error)
  | EvRollback (tx : Tx) (r : unit).

Definition M (A : Type) : Type := W -> Outcome A * W * list Event.

#[local] Instance M_ret : MRet M := fun A a w => (Return a, w, []).

#[local] Instance M_bind : MBind M := fun A B f m w =>
  match m w with
  | (Return a, w1, evs1) =>
      let '(o, w2, evs2) := f a w1 in (o, w2, evs1 ++ evs2)
  | (Panic, w1, evs1) => (Panic, w1, evs1)
  end.

Definition panic {A} : M A := fun w => (Panic, w, []).

(** An outside call [f], recorded with its result. *)
Definition call {R} (ev : R -> Event) (f : W -> R * W) : M R :=
  fun w => let '(r, w1) := f w in (Return r, w1, [ev r]).

(** The mutations handed to [tx.Mutate] in a run, in order. *)
Fixpoint mutations_issued (evs : list Event) : list (Mutation T) :=
  match evs with
  | [] => []
  | EvTxMutate _ muts _ :: rest => muts ++ mutations_issued rest
  | _ :: rest => mutations_issued rest
  end.

(** [a] is immediately followed by [b] somewhere in the run. *)
Fixpoint adjacent (a b : Event) (evs : list Event) : Prop :=
  match evs with
  | x :: (y :: _) as rest => (x = a /\ y = b) \/ adjacent a b rest
  | _ => False
  end.

(** *** Key derivation and the key hook *)

Fixpoint buildKeys (objs : list T) : M (list Key + error) :=
  match objs with
  | [] => mret (inl [])
  | obj :: rest =>
      r ← call (EvBuildKey obj (namespace db))
               (BuildKey obj (namespace db));
      match r with
      | inr err => mret (inr err)
      | inl key =>
          r' ← buildKeys rest;
          match r' with
          | inr err => mret (inr err)
          | inl keys => mret (inl (key :: keys))
          end
      end
  end.

Definition ResolveKey (key : Key) (obj : T) : M (option error) :=
  match LoadKey obj with
  | Some e =>
      err ← call (EvLoadKey obj key) (e key);
      match err with
      | Some _ => mret err
      | None => mret None
      end
  | None => mret None
  end.

(** *** The client's [RunInTransaction] *)

(** Modelled from the spec: [datastore.Client.RunInTransaction] belongs to
    the store client, not to this package.  Section 6 gives its contract:
    [f] receives a transaction handle; its error rolls the transaction
    back and is returned; otherwise the transaction commits, and the
    commit result or the conflict error is returned.  A client may run [f]
    again after a conflicting commit, [attempts] times in all; with one
    attempt the conflict is returned at once.  [c] stands for the
    variables of the caller that the closure [f] assigns. *)
Fixpoint RunInTransaction_loop {C : Type} (n : nat)
    (f : Tx -> C -> M (option error * C)) (c : C)
    : M ((Commit + error) * C) :=
  match n with
  | O => mret (inr ErrConcurrentTransaction, c)
  | S n' =>
      r ← call EvNewTransaction newTransaction;
      match r with
      | inr err => mret (inr err, c)
      | inl tx =>
          '(ferr, c') ← f tx c;
          match ferr with
          | Some err =>
              _ ← call (EvRollback tx) (tx_Rollback tx);
              mret (inr err, c')
          | None =>
              r' ← call (EvCommit tx) (tx_Commit tx);
              match r' with
              | inr ErrConcurrentTransaction =>
                  RunInTransaction_loop n' f c'
              | _ => mret (r', c')
              end
          end
      end
  end.

Definition RunInTransaction {C : Type}
    (f : Tx -> C -> M (option error * C)) (c : C)
    : M ((Commit + error) * C) :=
  RunInTransaction_loop attempts f c.

(** The attempts of the loop that a conflicting commit undid.
    [retried f n c w n' c' w' evs]: started with [n] attempts on [c] in
    [w], the loop stands, after the calls [evs], at the start of an attempt
    with [n'] attempts left, on [c'] in [w']; every attempt before ran
    [f] without error and ended in a commit that reported the conflict. *)
Inductive retried {C : Type} (f : Tx -> C -> M (option error * C))
    : nat -> C -> W -> nat -> C -> W -> list Event -> Prop :=
  | retried_none n c w : retried f n c w n c w []
  | retried_conflict n c w tx w1 c1 w2 evs w3 n' c' w' evs' :
      newTransaction w = (inl tx, w1) ->
      f tx c w1 = (Return (None, c1), w2, evs) ->
      tx_Commit tx w2 = (inr ErrConcurrentTransaction, w3) ->
      retried f n c1 w3 n' c' w' evs' ->
      retried f (S n) c w n' c' w'
        (EvNewTransaction (inl tx) :: evs ++
         EvCommit tx (inr ErrConcurrentTransaction) :: evs').

(** A closure that hands back the entities it was given. *)
Definition keeps_objs {A : Type}
    (f : Tx -> A * list T -> M (option error * (A * list T))) : Prop :=
  forall tx c w, exists ferr a w' evs,
    f tx c w = (Return (ferr, (a, snd c)), w', evs).

(** *** Create *)

Definition BatchCreateTx (tx : Tx) (objs : list T)
    : M (list PendingKey * list T * option error) :=
  r ← buildKeys objs;
  match r with
  | inr err => mret ([], objs, Some err)
  | inl keys =>
      let muts := zip_with NewInsert keys objs in
      r' ← call (EvTxMutate tx muts) (tx_Mutate tx muts);
      match r' with
      | inr err => mret ([], objs, Some err)
      | inl pks => mret (pks, objs, None)
      end
  end.

(** [for i, key := range keys]: the hook runs on [objs[i]], and the last
    error it reports is kept. *)
Fixpoint resolveKeys (keys : list Key) (objs : list T) (i : nat)
    (loadKeyErr : option error) : M (option error) :=
  match keys with
  | [] => mret loadKeyErr
  | key :: rest =>
      match objs !! i with
      | None => panic
      | Some obj =>
          err ← ResolveKey key obj;
          resolveKeys rest objs (S i)
            (match err with Some _ => err | None => loadKeyErr end)
      end
  end.

(** The closure passed to [RunInTransaction] assigns [pks] and [objs]. *)
Definition BatchCreate_closure (tx : Tx) (c : list PendingKey * list T)
    : M (option error * (list PendingKey * list T)) :=
  '(pks, objs, err) ← BatchCreateTx tx (snd c);
  mret (err, (pks, objs)).

Definition BatchCreate (objs : list T)
    : M (list Key * list T * option error) :=
  '(r, (pks, objs)) ← RunInTransaction BatchCreate_closure ([], objs);
  match r with
  | inr err => mret ([], objs, Some err)
  | inl cmt =>
      let keys := commit_Key cmt <$> pks in
      loadKeyErr ← resolveKeys keys objs 0 None;
      mret (keys, objs, loadKeyErr)
  end.

Definition CreateTx (tx : Tx) (obj : T)
    : M (option PendingKey * T * option error) :=
  '(pks, objs, err) ← BatchCreateTx tx [obj];
  match err with
  | Some _ => mret (None, obj, err)
  | None =>
      match pks !! 0%nat, objs !! 0%nat with
      | Some pk, Some o => mret (Some pk, o, None)
      | _, _ => panic
      end
  end.

(** *** Get *)

Definition BatchGetTx (tx : Tx) (objs : list T)
    : M (list T * option error) :=
  r ← buildKeys objs;
  match r with
  | inr err => mret (objs, Some err)
  | inl keys =>
      err ← call (EvTxGetMulti tx keys objs) (tx_GetMulti tx keys objs);
      match err with
      | Some _ => mret (objs, err)
      | None => mret (objs, None)
      end
  end.

Definition Get (obj : T) : M (T * option error) :=
  r ← call (EvBuildKey obj (namespace db)) (BuildKey obj (namespace db));
  match r with
  | inr (MultiError merr) =>
      match merr !! 0%nat with
      | Some err => mret (obj, err)
      | None => panic
      end
  | inr err => mret (obj, Some err)
  | inl key =>
      err ← call (EvClientGet key obj) (client_Get key obj);
      mret (obj, err)
  end.

Definition GetTx (tx : Tx) (obj : T) : M (T * option error) :=
  '(objs, err) ← BatchGetTx tx [obj];
  match err with
  | Some (MultiError merr) =>
      match merr !! 0%nat with
      | Some err' => mret (obj, err')
      | None => panic
      end
  | Some _ => mret (obj, err)
  | None =>
      match objs !! 0%nat with
      | Some o => mret (o, None)
      | None => panic
      end
  end.

(** *** Put *)

Definition BatchPutTx (tx : Tx) (objs : list T)
    : M (list PendingKey * list T * option error) :=
  r ← buildKeys objs;
  match r with
  | inr err => mret ([], objs, Some err)
  | inl keys =>
      let muts := zip_with NewUpsert keys objs in
      r' ← call (EvTxMutate tx muts) (tx_Mutate tx muts);
      match r' with
      | inr err => mret ([], objs, Some err)
      | inl pks => mret (pks, objs, None)
      end
  end.

(** [for i, pk := range pks { keys[i] = cmt.Key(pk) }]: writing past the
    end of [keys] panics. *)
Fixpoint commitKeys (cmt : Commit) (pks : list PendingKey) (i : nat)
    (keys : list Key) : M (list Key) :=
  match pks with
  | [] => mret keys
  | pk :: rest =>
      if bool_decide (i < length keys)%nat
      then commitKeys cmt rest (S i) (<[i := commit_Key cmt pk]> keys)
      else panic
  end.

Definition BatchPut_closure (tx : Tx) (c : list PendingKey * list T)
    : M (option error * (list PendingKey * list T)) :=
  '(pks, objs, err) ← BatchPutTx tx (snd c);
  mret (err, (pks, objs)).

Definition BatchPut (objs : list T)
    : M (list Key * list T * option error) :=
  r ← buildKeys objs;
  match r with
  | inr err => mret ([], objs, Some err)
  | inl keys =>
      '(r', (pks, objs)) ← RunInTransaction BatchPut_closure ([], objs);
      match r' with
      | inr err => mret ([], objs, Some err)
      | inl cmt =>
          keys ← commitKeys cmt pks 0 keys;
          loadKeyErr ← resolveKeys keys objs 0 None;
          mret (keys, objs, loadKeyErr)
      end
  end.

Definition PutTx (tx : Tx) (obj : T)
    : M (option PendingKey * T * option error) :=
  '(pks, objs, err) ← BatchPutTx tx [obj];
  match err with
  | Some _ => mret (None, obj, err)
  | None =>
      match pks !! 0%nat, objs !! 0%nat with
      | Some pk, Some o => mret (Some pk, o, None)
      | _, _ => panic
      end
  end.

(** *** Delete *)

Definition BatchDeleteTx (tx : Tx) (objs : list T) : M (option error) :=
  r ← buildKeys objs;
  match r with
  | inr err => mret (Some err)
  | inl keys => call (EvTxDeleteMulti tx keys) (tx_DeleteMulti tx keys)
  end.

Definition DeleteTx (tx : Tx) (obj : T) : M (option error) :=
  BatchDeleteTx tx [obj].

(** *** Update

    [updateFunc] and [createFunc] are Go function values: [None] is the
    nil function.  Calling a nil [updateFunc] panics; a nil [createFunc]
    is tested for before it is called. *)

Definition Callback : Type := T -> W -> (T * option error) * W.

Definition UpdateTx (tx : Tx) (obj : T)
    (updateFunc createFunc : option Callback) : M (T * option error) :=
  let ns := namespace db in
  r ← call (EvBuildKey obj ns) (BuildKey obj ns);
  match r with
  | inr err => mret (obj, Some err)
  | inl key =>
      (* From the call of [updateFunc] to the end of the function. *)
      let update_and_mutate (obj : T) (created : bool)
          : M (T * option error) :=
        match updateFunc with
        | None => panic
        | Some f =>
            '(obj, err) ← call (EvUpdateFunc obj) (f obj);
            if errors_Is err ErrUpdateAbort then mret (obj, None)
            else match err with
            | Some _ => mret (obj, err)
            | None =>
                r' ← call (EvBuildKey obj ns) (BuildKey obj ns);
                match r' with
                | inl newKey =>
                    if negb (cmpKey key newKey)
                    then mret (obj, Some ErrKeyChanged)
                    else
                      let mut := if created then NewInsert key obj
                                 else NewUpdate key obj in
                      r'' ← call (EvTxMutate tx [mut])
                                 (tx_Mutate tx [mut]);
                      match r'' with
                      | inr err => mret (obj, Some err)
                      | inl _ => mret (obj, None)
                      end
                | inr err => mret (obj, Some err)
                end
            end
        end in
      err ← call (EvTxGet tx key obj) (tx_Get tx key obj);
      match err with
      | Some ErrNoSuchEntity =>
          match createFunc with
          | None => mret (obj, err)
          | Some g =>
              '(obj, err) ← call (EvCreateFunc obj) (g obj);
              match err with
              | Some _ => mret (obj, err)
              | None =>
                  r' ← call (EvBuildKey obj ns) (BuildKey obj ns);
                  match r' with
                  | inl newKey =>
                      if negb (cmpKey key newKey)
                      then mret (obj, Some ErrKeyChanged)
                      else update_and_mutate obj true
                  | inr err => mret (obj, Some err)
                  end
              end
          end
      | Some _ => mret (obj, err)
      | None => update_and_mutate obj false
      end
  end.

(** The closure passed to [RunInTransaction] assigns [obj]. *)
Definition Update_closure (updateFunc createFunc : option Callback)
    (tx : Tx) (obj : T) : M (option error * T) :=
  '(obj, err) ← UpdateTx tx obj updateFunc createFunc;
  mret (err, obj).

Definition Update (obj : T) (updateFunc createFunc : option Callback)
    : M (T * option error) :=
  '(r, obj) ← RunInTransaction (Update_closure updateFunc createFunc) obj;
  match r with
  | inr err => mret (obj, Some err)
  | inl _ => mret (obj, None)
  end.

(** *** What a run shows

    Readings of the events of a run, and the three statements of the
    specification that are compared with the code below. *)

(** The keys the entities' [BuildKey] returned, in order. *)
Definition built_keys (evs : list Event) : list Key :=
  omap (fun ev => match ev with
                  | EvBuildKey _ _ (inl k) => Some k
                  | _ => None
                  end) evs.

Definition is_hook (ev : Event) : Prop :=
  match ev with EvLoadKey _ _ _ => True | _ => False end.

(** The entities the key hook ran on, with the key each one received. *)
Definition hook_calls (evs : list Event) : list (T * Key) :=
  omap (fun ev => match ev with
                  | EvLoadKey o k _ => Some (o, k)
                  | _ => None
                  end) evs.

(** The errors the key hook reported, in order. *)
Definition hook_errors (evs : list Event) : list error :=
  omap (fun ev => match ev with
                  | EvLoadKey _ _ r => r
                  | _ => None
                  end) evs.

Definition has_hook (ok : T * Key) : Prop := is_Some (LoadKey (fst ok)).

(** "Key derivation by the session yields a key whose namespace is set
    on the key and on every ancestor." *)
Definition derived_keys_uniform (objs : list T) (w : W) : Prop :=
  forall keys w' evs,
    buildKeys objs w = (Return (inl keys), w', evs) ->
    Forall (uniform_ns (namespace db)) keys.


(** The single-key lookup of the client reports one plain error: a value
    or not-found, never a multi-error, which only the batched lookups
    return. *)
Definition plain_lookup : Prop :=
  forall key dst w merr, fst (client_Get key dst w) <> Some (MultiError merr).

(** "A single-entity Get whose store lookup reports a multi-error with
    one element returns that element." *)
Definition Get_unwraps_lookup_error (obj : T) (w : W) : Prop :=
  forall key w1 e w2,
    BuildKey obj (namespace db) w = (inl key, w1) ->
    client_Get key obj w1 = (Some (MultiError [e]), w2) ->
    exists evs, Get obj w = (Return (obj, e), w2, evs).

(** "In every successful UpdateTx run exactly one mutation is issued." *)
Definition success_issues_one_mutation (tx : Tx) (obj : T)
    (updateFunc createFunc : option Callback) (w : W) : Prop :=
  forall o w' evs,
    UpdateTx tx obj updateFunc createFunc w = (Return (o, None), w', evs) ->
    exists m, mutations_issued evs = [m].

(** *** The single-entity operations, as the specification words them:
    the batch operation on the one-element list, then the first pending
    key, the first entity and the error of its result. *)

Definition first_of_batch {A : Type} (obj : T)
    (r : list A * list T * option error) : option A * T * option error :=
  let '(xs, objs, err) := r in (head xs, default obj (head objs), err).

Definition CreateTx_of_batch (tx : Tx) (obj : T)
    : M (option PendingKey * T * option error) :=
  r ← BatchCreateTx tx [obj]; mret (first_of_batch obj r).

Definition PutTx_of_batch (tx : Tx) (obj : T)
    : M (option PendingKey * T * option error) :=
  r ← BatchPutTx tx [obj]; mret (first_of_batch obj r).

(** A multi-error with a single element stands for that element. *)
Definition unwrap_single (err : option error) : option error :=
  match err with
  | Some (MultiError [e]) => e
  | _ => err
  end.

Definition GetTx_of_batch (tx : Tx) (obj : T) : M (T * option error) :=
  '(objs, err) ← BatchGetTx tx [obj];
  mret (default obj (head objs), unwrap_single err).

Definition DeleteTx_of_batch (tx : Tx) (obj : T) : M (option error) :=
  BatchDeleteTx tx [obj].

End Wrapper.

(** ** The store contract

    Keys index the rows of the store: a key is determined by the fields of
    its levels, leaf first. *)

Definition key_path (k : Key) : list (string * Z * string * string) :=
  (fun l => (Kind l, ID l, Name l, Namespace l)) <$> ancestors k.

Fixpoint key_of_path (p : list (string * Z * string * string))
    : option Key :=
  match p with
  | [] => None
  | (kd, i, n, ns) :: rest => Some (mkKey kd i n (key_of_path rest) ns)
  end.

Definition key_of_path_key_path (k : Key) :
  key_of_path (key_path k) = Some k.
Proof.
  induction k as [kd i n ns | kd i n p ns IH] using Key_chain_ind.
  - reflexivity.
  - change (key_path (mkKey kd i n (Some p) ns))
      with ((kd, i, n, ns) :: key_path p).
    cbn [key_of_path]. rewrite IH. reflexivity.
Defined.

#[global] Instance Key_eq_dec : EqDecision Key.
Proof.
  intros a b. destruct (decide (key_path a = key_path b)) as [E | E].
  - left. apply (f_equal key_of_path) in E.
    rewrite !key_of_path_key_path in E. congruence.
  - right. congruence.
Defined.

#[global] Instance Key_countable : Countable Key :=
  inj_countable key_path key_of_path key_of_path_key_path.

(** Modelled from the spec: the store's mutations are carried out by the
    remote store, outside this package.  Section 6 gives their contract: an
    insert fails if the key exists, an update fails if it does not, an
    upsert overwrites or inserts.  [src] is here the saved value. *)
Definition apply_mutation {V : Type} (m : Mutation V)
    (rows : gmap Key V) : gmap Key V + error :=
  match m with
  | NewInsert k v =>
      match rows !! k with
      | Some _ => inr (ErrorNew "AlreadyExists")
      | None => inl (<[k := v]> rows)
      end
  | NewUpdate k v =>
      match rows !! k with
      | Some _ => inl (<[k := v]> rows)
      | None => inr (ErrorNew "NotFound")
      end
  | NewUpsert k v => inl (<[k := v]> rows)
  end.

(** ** An in-memory store and a sample entity

    A small instance of the two interfaces, after the package's test
    suite: entities are pointers into a heap, a transaction queues its
    writes and applies them at commit, all or nothing. *)

Module Emulator.

Record exampleObj : Type :=
  { obj_ID : Z; obj_Data : Z; obj_LoadedKey : Z }.

Record World : Type := {
  heap : list exampleObj;
  rows : gmap Key exampleObj;
  queued : list (Mutation exampleObj + Key)
}.

Definition deref (p : nat) (w : World) : exampleObj :=
  default {| obj_ID := 0; obj_Data := 0; obj_LoadedKey := 0 |}
          (heap w !! p).

Definition assign (p : nat) (v : exampleObj) (w : World) : World :=
  {| heap := <[p := v]> (heap w); rows := rows w; queued := queued w |}.

(** [exampleObj.BuildKey]: [IDKey("Test", x.ID, nil)] with its
    [Namespace] field set to [ns]. *)
Definition example_BuildKey (p : nat) (ns : string) (w : World)
    : (Key + error) * World :=
  (inl (mkKey "Test" (obj_ID (deref p w)) "" None ns), w).

(** [exampleObj.LoadKey] records the ID of the key; this one also
    refuses an incomplete key (ID 0). *)
Definition example_LoadKey (p : nat) (k : Key) (w : World)
    : option error * World :=
  if Z.eqb (ID k) 0 then (Some (ErrorNew "incomplete key"), w)
  else
    let x := deref p w in
    (None, assign p {| obj_ID := obj_ID x; obj_Data := obj_Data x;
                       obj_LoadedKey := ID k |} w).

Definition exampleObject : Object nat World :=
  {| BuildKey := example_BuildKey;
     LoadKey := fun p => Some (example_LoadKey p) |}.

(** An entity kept under a parent key, without the key hook.  Like
    [exampleObj.BuildKey], its [BuildKey] writes the namespace into the
    returned key only:
    [key := NameKey("Child", "c", NameKey("Parent", "p", nil))], then
    [key.Namespace = ns]. *)
Definition child_BuildKey (p : nat) (ns : string) (w : World)
    : (Key + error) * World :=
  (inl (mkKey "Child" 0 "c" (Some (NameKey "Parent" "p" None)) ns), w).

Definition childObject : Object nat World :=
  {| BuildKey := child_BuildKey; LoadKey := fun _ => None |}.

(** The same entity with a [BuildKey] that goes through [SetNS]. *)
Definition stamped_BuildKey (p : nat) (ns : string) (w : World)
    : (Key + error) * World :=
  (inl (SetNS (NameKey "Child" "c" (Some (NameKey "Parent" "p" None)))
              ns), w).

Definition stampedObject : Object nat World :=
  {| BuildKey := stamped_BuildKey; LoadKey := fun _ => None |}.

(** Point lookup into [dst]. *)
Definition lookup_row (key : Key) (dst : nat) (w : World)
    : option error * World :=
  match rows w !! key with
  | Some v => (None, assign dst v w)
  | None => (Some ErrNoSuchEntity, w)
  end.

Fixpoint lookup_rows (keys : list Key) (dst : list nat) (w : World)
    : list (option error) * World :=
  match keys, dst with
  | key :: keys', d :: dst' =>
      let '(e, w1) := lookup_row key d w in
      let '(es, w2) := lookup_rows keys' dst' w1 in
      (e :: es, w2)
  | _, _ => ([], w)
  end.

(** Batched lookup: a [MultiError] with one entry per key when some key
    is missing. *)
Definition getMulti (keys : list Key) (dst : list nat) (w : World)
    : option error * World :=
  let '(es, w') := lookup_rows keys dst w in
  if forallb (fun e => match e with None => true | Some _ => false end) es
  then (None, w')
  else (Some (MultiError es), w').

Definition saved (w : World) (m : Mutation nat) : Mutation exampleObj :=
  match m with
  | NewInsert k p => NewInsert k (deref p w)
  | NewUpdate k p => NewUpdate k (deref p w)
  | NewUpsert k p => NewUpsert k (deref p w)
  end.

Definition mutate (muts : list (Mutation nat)) (w : World)
    : (list Key + error) * World :=
  (inl (mutation_key <$> muts),
   {| heap := heap w; rows := rows w;
      queued := queued w ++ (inl <$> (saved w <$> muts)) |}).

Definition deleteMulti (keys : list Key) (w : World)
    : option error * World :=
  (None, {| heap := heap w; rows := rows w;
            queued := queued w ++ (inr <$> keys) |}).

Fixpoint apply_all (q : list (Mutation exampleObj + Key))
    (r : gmap Key exampleObj) : gmap Key exampleObj + error :=
  match q with
  | [] => inl r
  | inl m :: q' =>
      match apply_mutation m r with
      | inl r' => apply_all q' r'
      | inr e => inr e
      end
  | inr k :: q' => apply_all q' (delete k r)
  end.

Definition commit (w : World) : (unit + error) * World :=
  match apply_all (queued w) (rows w) with
  | inl r => (inl tt, {| heap := heap w; rows := r; queued := [] |})
  | inr e => (inr e, {| heap := heap w; rows := rows w; queued := [] |})
  end.

Definition rollback (w : World) : unit * World :=
  (tt, {| heap := heap w; rows := rows w; queued := [] |}).

Definition storeClient : Client nat World unit Key unit :=
  {| client_Get := lookup_row;
     tx_Get := fun _ => lookup_row;
     tx_GetMulti := fun _ => getMulti;
     tx_Mutate := fun _ => mutate;
     tx_DeleteMulti := fun _ => deleteMulti;
     newTransaction := fun w => (inl tt, w);
     tx_Commit := fun _ => commit;
     tx_Rollback := fun _ => rollback;
     commit_Key := fun _ pk => pk;
     attempts := 3 |}.

(** Callbacks, as the test suite writes them. *)

(** [eo.Data = d; return eo, nil] *)
Definition set_data (d : Z) (p : nat) (w : World)
    : (nat * option error) * World :=
  let x := deref p w in
  ((p, None), assign p {| obj_ID := obj_ID x; obj_Data := d;
                          obj_LoadedKey := obj_LoadedKey x |} w).


(** [return eo, fmt.Errorf("unchanged: %w", ErrUpdateAbort)] *)
Definition decline (p : nat) (w : World)
    : (nat * option error) * World :=
  ((p, Some (Wrapf "unchanged" ErrUpdateAbort)), w).

(** [return &exampleObj{ID: i}, nil] *)
Definition fresh (i : Z) (p : nat) (w : World)
    : (nat * option error) * World :=
  ((length (heap w), None),
   {| heap := heap w ++ [{| obj_ID := i; obj_Data := 0;
                            obj_LoadedKey := 0 |}];
      rows := rows w; queued := queued w |}).

Definition db : DSEnt := NewDSEnt "Test" "Test".

Definition row (i d : Z) : exampleObj :=
  {| obj_ID := i; obj_Data := d; obj_LoadedKey := 0 |}.

Definition key_of (i : Z) : Key := mkKey "Test" i "" None "Test".

(** A store holding entity 1, and a heap with three entities to work
    on: IDs 1 and 11, and one with no ID yet. *)
Definition w0 : World :=
  {| heap := [row 1 0; row 11 0; row 0 0];
     rows := {[ key_of 1 := row 1 7 ]};
     queued := [] |}.

(** Sample runs of the update protocol on [w0]. *)

(** Entity 11 is missing and the fallback creates it under the same ID. *)
Definition run_created :=
  @UpdateTx _ _ _ _ _ exampleObject storeClient db tt 1%nat
    (Some (set_data 5)) (Some (fresh 11)) w0.


(** Entity 1 is found and the update function declines. *)
Definition run_declined :=
  @UpdateTx _ _ _ _ _ exampleObject storeClient db tt 0%nat
    (Some decline) None w0.

End Emulator.

(** ** More of the package

    The operations the sections above leave out, and what is needed to
    state how they behave. *)

(** Two levels name the same path element: kind, ID and name agree. *)
Definition same_element (a b : Key) : Prop :=
  Kind a = Kind b /\ ID a = ID b /\ Name a = Name b.

Section WrapperMore.

Context {T W Tx PendingKey Commit : Type}.
Context `{!Object T W} `{!Client T W Tx PendingKey Commit}.
Variable db : DSEnt.
#[local] Existing Instances M_bind M_ret.
#[local] Abbreviation ns := (namespace db).
#[local] Abbreviation Ev := (@Event T Tx PendingKey Commit).
#[local] Abbreviation Run := (@M T W Tx PendingKey Commit).

(** Only key derivation took place: no call of the client. *)
Definition only_key_derivation (evs : list Ev) : Prop :=
  Forall (fun ev => exists o r, ev = EvBuildKey o ns r) evs.

(** What [BatchCreateTx] and [BatchPutTx] have in common: [mk] is
    [NewInsert] or [NewUpsert].  Either every entity gave its key and the
    one call of [tx.Mutate] follows, whose result [r] decides what is
    returned, or the run ends with the [BuildKey] that failed. *)
Definition batch_write_run (mk : Key -> T -> Mutation T)
    (tx : Tx) (objs : list T)
    (run : Outcome (list PendingKey * list T * option error) * W * list Ev)
    : Prop :=
  (exists keys r w',
     length keys = length objs /\
     run = (Return (match r with
                    | inl pks => (pks, objs, None)
                    | inr e => ([], objs, Some e)
                    end), w',
            zip_with (fun o k => EvBuildKey o ns (inl k)) objs keys
            ++ [EvTxMutate tx (zip_with mk keys objs) r]))
  \/
  (exists keys o e w',
     objs !! length keys = Some o /\
     run = (Return ([], objs, Some e), w',
            zip_with (fun o k => EvBuildKey o ns (inl k))
              (take (length keys) objs) keys
            ++ [EvBuildKey o ns (inr e)])).

(** A closure whose own calls never reach the key hook. *)
Definition hook_free {C : Type} (f : Tx -> C -> Run (option error * C))
    : Prop :=
  forall tx c w out w' evs, f tx c w = (out, w', evs) -> hook_calls evs = [].

(** [BatchDelete]: the closure passed to [RunInTransaction] only returns
    the error of [BatchDeleteTx]. *)
Definition BatchDelete_closure (objs : list T) (tx : Tx) (c : unit)
    : Run (option error * unit) :=
  err ← BatchDeleteTx db tx objs; mret (err, c).

Definition BatchDelete (objs : list T) : Run (option error) :=
  '(r, _) ← RunInTransaction (BatchDelete_closure objs) tt;
  match r with
  | inr err => mret (Some err)
  | inl _ => mret None
  end.

End WrapperMore.

(** ** Operations outside a transaction

    [Create], [Put], [Delete], [BatchGet], [Exists] and [ExistsTx] call
    [datastore.Client] directly. *)

(** [datastore.Query], as far as the wrapper builds one: the kind given to
    [datastore.NewQuery] and what the builder methods [Namespace],
    [FilterField], [KeysOnly], [Limit] and [Transaction] record.  A new
    query has no limit, written [-1]. *)
Record Query (Tx : Type) : Type := mkQuery {
  q_kind : string;
  q_namespace : string;
  q_filter : list (string * string * Key);
  q_keysOnly : bool;
  q_limit : Z;
  q_trans : option Tx
}.
Arguments mkQuery {Tx}.
Arguments q_kind {Tx}.
Arguments q_namespace {Tx}.
Arguments q_filter {Tx}.
Arguments q_keysOnly {Tx}.
Arguments q_limit {Tx}.
Arguments q_trans {Tx}.

Definition datastore_NewQuery {Tx} (kind : string) : Query Tx :=
  mkQuery kind "" [] false (-1) None.

Definition Query_Namespace {Tx} (q : Query Tx) (ns : string) : Query Tx :=
  mkQuery (q_kind q) ns (q_filter q) (q_keysOnly q) (q_limit q) (q_trans q).

Definition Query_FilterField {Tx} (q : Query Tx) (field op : string)
    (value : Key) : Query Tx :=
  mkQuery (q_kind q) (q_namespace q) (q_filter q ++ [(field, op, value)])
          (q_keysOnly q) (q_limit q) (q_trans q).

Definition Query_KeysOnly {Tx} (q : Query Tx) : Query Tx :=
  mkQuery (q_kind q) (q_namespace q) (q_filter q) true (q_limit q)
          (q_trans q).

Definition Query_Limit {Tx} (q : Query Tx) (limit : Z) : Query Tx :=
  mkQuery (q_kind q) (q_namespace q) (q_filter q) (q_keysOnly q) limit
          (q_trans q).

Definition Query_Transaction {Tx} (q : Query Tx) (tx : Tx) : Query Tx :=
  mkQuery (q_kind q) (q_namespace q) (q_filter q) (q_keysOnly q)
          (q_limit q) (Some tx).

(** The methods of [datastore.Client] that commit on their own. *)
Class DirectClient (T W Tx : Type) : Type := {
  client_Mutate : list (Mutation T) -> W -> (list Key + error) * W;
  client_Put : Key -> T -> W -> (Key + error) * W;
  client_Delete : Key -> W -> option error * W;
  client_GetMulti : list Key -> list T -> W -> option error * W;
  client_GetAll : Query Tx -> W -> (list Key + error) * W
}.

Section Direct.

Context {T W Tx PendingKey Commit : Type}.
Context `{!Object T W} `{!Client T W Tx PendingKey Commit}.
Context `{!DirectClient T W Tx}.
Variable db : DSEnt.

(** The events of these operations: those of the transactional part, and
    the direct calls. *)
Inductive DirectEvent : Type :=
  | EvWrapper (ev : @Event T Tx PendingKey Commit)
  | EvClientMutate (muts : list (Mutation T)) (r : list Key + error)
  | EvClientPut (key : Key) (src : T) (r : Key + error)
  | EvClientDelete (key : Key) (r : option error)
  | EvClientGetMulti (keys : list Key) (dst : list T) (r : option error)
  | EvClientGetAll (q : Query Tx) (r : list Key + error).

Definition D (A : Type) : Type := W -> Outcome A * W * list DirectEvent.

#[local] Existing Instances M_bind M_ret.

#[local] Instance D_ret : MRet D := fun A a w => (Return a, w, []).

#[local] Instance D_bind : MBind D := fun A B f m w =>
  match m w with
  | (Return a, w1, evs1) =>
      let '(o, w2, evs2) := f a w1 in (o, w2, evs1 ++ evs2)
  | (Panic, w1, evs1) => (Panic, w1, evs1)
  end.

Definition direct_panic {A} : D A := fun w => (Panic, w, []).

Definition direct_call {R} (ev : R -> DirectEvent) (f : W -> R * W) : D R :=
  fun w => let '(r, w1) := f w in (Return r, w1, [ev r]).

(** A run of the transactional part inside a direct operation. *)
Definition wrapped {A} (m : @M T W Tx PendingKey Commit A) : D A :=
  fun w => let '(o, w1, evs) := m w in (o, w1, EvWrapper <$> evs).

Definition derive_key (obj : T) : D (Key + error) :=
  wrapped (call (EvBuildKey obj (namespace db))
                (BuildKey obj (namespace db))).

Definition Create (obj : T) : D (option Key * T * option error) :=
  r ← derive_key obj;
  match r with
  | inr err => mret (None, obj, Some err)
  | inl key =>
      let mut := NewInsert key obj in
      r' ← direct_call (EvClientMutate [mut]) (client_Mutate [mut]);
      match r' with
      | inr err => mret (None, obj, Some err)
      | inl keys =>
          match keys !! 0%nat with
          | None => direct_panic
          | Some key =>
              err ← wrapped (ResolveKey key obj);
              mret (Some key, obj, err)
          end
      end
  end.

Definition Put (obj : T) : D (option Key * T * option error) :=
  r ← derive_key obj;
  match r with
  | inr err => mret (None, obj, Some err)
  | inl key =>
      r' ← direct_call (EvClientPut key obj) (client_Put key obj);
      match r' with
      | inr err => mret (None, obj, Some err)
      | inl key =>
          err ← wrapped (ResolveKey key obj);
          mret (Some key, obj, err)
      end
  end.

Definition Delete (obj : T) : D (option error) :=
  r ← derive_key obj;
  match r with
  | inr err => mret (Some err)
  | inl key => direct_call (EvClientDelete key) (client_Delete key)
  end.

Definition BatchGet (objs : list T) : D (list T * option error) :=
  r ← wrapped (buildKeys db objs);
  match r with
  | inr err => mret (objs, Some err)
  | inl keys =>
      err ← direct_call (EvClientGetMulti keys objs)
                        (client_GetMulti keys objs);
      match err with
      | Some _ => mret (objs, err)
      | None => mret (objs, None)
      end
  end.

(** The query of [Exists]; [ExistsTx] binds it to the transaction. *)
Definition exists_query (key : Key) : Query Tx :=
  Query_Limit
    (Query_KeysOnly
       (Query_FilterField
          (Query_Namespace (datastore_NewQuery (Kind key)) (namespace db))
          "__key__" "=" key))
    1.

Definition Exists (obj : T) : D (bool * option error) :=
  r ← derive_key obj;
  match r with
  | inr err => mret (false, Some err)
  | inl key =>
      let q := exists_query key in
      r' ← direct_call (EvClientGetAll q) (client_GetAll q);
      match r' with
      | inr err => mret (false, Some err)
      | inl keys => mret (bool_decide (0 < length keys)%nat, None)
      end
  end.

Definition ExistsTx (tx : Tx) (obj : T) : D (bool * option error) :=
  r ← derive_key obj;
  match r with
  | inr err => mret (false, Some err)
  | inl key =>
      let q := Query_Transaction (exists_query key) tx in
      r' ← direct_call (EvClientGetAll q) (client_GetAll q);
      match r' with
      | inr err => mret (false, Some err)
      | inl keys => mret (bool_decide (0 < length keys)%nat, None)
      end
  end.

End Direct.

(** ** The kind registry

    [kindmanager.go]: the package-level map [registeredKinds] and the mutex
    [lock] that guards it.  [held] tells whether the mutex is locked. *)

Module Kinds.

Record Registry : Type := {
  registeredKinds : gmap string bool;
  held : bool
}.

(** The state at program start: an empty map, an unlocked mutex. *)
Definition initial : Registry :=
  {| registeredKinds := ∅; held := false |}.

(** [registeredKinds[name]]: a missing key reads as [false]. *)
Definition registered (r : Registry) (name : string) : bool :=
  default false (registeredKinds r !! name).

(** A call returns, panics with a message, or waits for the mutex; the
    deferred [Unlock] runs on return and on panic alike. *)
Inductive Result : Type :=
  | Returned (r : Registry)
  | Panicked (msg : string) (r : Registry)
  | Waiting.

Definition RegisterKind (name : string) (r : Registry) : Result :=
  if held r then Waiting
  else
    let locked := {| registeredKinds := registeredKinds r; held := true |} in
    if registered locked name
    then Panicked ("kind already registered: " ++ name)
           {| registeredKinds := registeredKinds locked; held := false |}
    else Returned {| registeredKinds := <[name := true]>
                                          (registeredKinds locked);
                     held := false |}.

(** Registering the kinds of a list one after the other, as a program
    does at start-up; the first panic ends it. *)
Fixpoint RegisterKinds (names : list string) (r : Registry) : Result :=
  match names with
  | [] => Returned r
  | name :: rest =>
      match RegisterKind name r with
      | Returned r' => RegisterKinds rest r'
      | other => other
      end
  end.

End Kinds.

(** ** The in-memory store, outside a transaction *)

Module EmulatorDirect.
Import Emulator.

(** A key without ID and name is incomplete: the store gives it an ID of
    its own when the entity is written. *)
Definition complete (k : Key) (r : gmap Key exampleObj) : Key :=
  if Z.eqb (ID k) 0 && String.eqb (Name k) ""
  then mkKey (Kind k) (1000 + Z.of_nat (size r)) "" (Parent k) (Namespace k)
  else k.

Definition with_key {V : Type} (k : Key) (m : Mutation V) : Mutation V :=
  match m with
  | NewInsert _ v => NewInsert k v
  | NewUpdate _ v => NewUpdate k v
  | NewUpsert _ v => NewUpsert k v
  end.

Fixpoint write_all (muts : list (Mutation exampleObj))
    (r : gmap Key exampleObj) : (list Key * gmap Key exampleObj) + error :=
  match muts with
  | [] => inl ([], r)
  | m :: rest =>
      let k := complete (mutation_key m) r in
      match apply_mutation (with_key k m) r with
      | inr e => inr e
      | inl r1 =>
          match write_all rest r1 with
          | inr e => inr e
          | inl (ks, r2) => inl (k :: ks, r2)
          end
      end
  end.

(** [Client.Mutate]: all the mutations or none. *)
Definition mutate_now (muts : list (Mutation nat)) (w : World)
    : (list Key + error) * World :=
  match write_all (saved w <$> muts) (rows w) with
  | inl (ks, r) =>
      (inl ks, {| heap := heap w; rows := r; queued := queued w |})
  | inr e => (inr e, w)
  end.

Definition put_now (key : Key) (src : nat) (w : World)
    : (Key + error) * World :=
  let k := complete key (rows w) in
  (inl k, {| heap := heap w; rows := <[k := deref src w]> (rows w);
             queued := queued w |}).

Definition delete_now (key : Key) (w : World) : option error * World :=
  (None, {| heap := heap w; rows := delete key (rows w);
            queued := queued w |}).

Definition matches (q : Query unit) (k : Key) : bool :=
  String.eqb (Kind k) (q_kind q) && String.eqb (Namespace k) (q_namespace q)
  && forallb (fun f => bool_decide (snd f = k)) (q_filter q).

(** [Client.GetAll] for a keys-only query: the keys of the rows the query
    selects, up to its limit. *)
Definition get_all (q : Query unit) (w : World)
    : (list Key + error) * World :=
  let found := filter (fun k => matches q k = true)
                 (fst <$> map_to_list (rows w)) in
  (inl (if Z.ltb (q_limit q) 0 then found
        else take (Z.to_nat (q_limit q)) found), w).

Definition directClient : DirectClient nat World unit :=
  {| client_Mutate := mutate_now;
     client_Put := put_now;
     client_Delete := delete_now;
     client_GetMulti := getMulti;
     client_GetAll := get_all |}.

(** An entity that cannot derive a key before it has an ID. *)
Definition strict_BuildKey (p : nat) (ns : string) (w : World)
    : (Key + error) * World :=
  if Z.eqb (obj_ID (deref p w)) 0 then (inr (ErrorNew "missing id"), w)
  else example_BuildKey p ns w.

Definition strictObject : Object nat World :=
  {| BuildKey := strict_BuildKey;
     LoadKey := fun p => Some (example_LoadKey p) |}.

(** A client that wraps the errors of its transactional read. *)
Definition wrappingClient : Client nat World unit Key unit :=
  {| client_Get := lookup_row;
     tx_Get := fun _ key dst w =>
       match lookup_row key dst w with
       | (Some e, w') => (Some (Wrapf "get" e), w')
       | r => r
       end;
     tx_GetMulti := fun _ => getMulti;
     tx_Mutate := fun _ => mutate;
     tx_DeleteMulti := fun _ => deleteMulti;
     newTransaction := fun w => (inl tt, w);
     tx_Commit := fun _ => commit;
     tx_Rollback := fun _ => rollback;
     commit_Key := fun _ pk => pk;
     attempts := 3 |}.

(** [return eo, errors.New("no default")] *)
Definition refuse (p : nat) (w : World) : (nat * option error) * World :=
  ((p, Some (ErrorNew "no default")), w).

(** More sample runs on [w0]. *)

(** Entity 11 is missing and the fallback refuses to create it. *)
Definition run_refused :=
  @UpdateTx _ _ _ _ _ exampleObject storeClient db tt 1%nat
    (Some (set_data 5)) (Some refuse) w0.

(** The read of entity 11 fails with a wrapped not-found error. *)
Definition run_wrapped :=
  @UpdateTx _ _ _ _ _ exampleObject wrappingClient db tt 1%nat
    (Some (set_data 5)) (Some (fresh 11)) w0.

(** The entity has no ID yet and cannot derive its key. *)
Definition run_keyless :=
  @UpdateTx _ _ _ _ _ strictObject storeClient db tt 2%nat
    (Some (set_data 5)) None w0.

(** Entity 1 is found and updated. *)
Definition run_updated :=
  @UpdateTx _ _ _ _ _ exampleObject storeClient db tt 0%nat
    (Some (set_data 5)) None w0.

(** Entity 1 is found and there is no update function. *)
Definition run_nil_update :=
  @UpdateTx _ _ _ _ _ exampleObject storeClient db tt 0%nat None None w0.

(** Creating the entity without ID, and entity 1 again. *)
Definition run_create :=
  @Create _ _ unit Key unit exampleObject directClient db 2%nat w0.

Definition run_create_again :=
  @Create _ _ unit Key unit exampleObject directClient db 0%nat w0.

Definition run_put :=
  @Put _ _ unit Key unit exampleObject directClient db 0%nat w0.

Definition run_exists :=
  @Exists _ _ unit Key unit exampleObject directClient db 0%nat w0.

Definition run_exists_tx :=
  @ExistsTx _ _ unit Key unit exampleObject directClient db tt 0%nat w0.

End EmulatorDirect.

(** * Properties *)

(** ** Key comparison *)

Lemma ancestors_unfold k :
  ancestors k = k :: match Parent k with
                     | None => []
                     | Some p => ancestors p
                     end.
Proof. destruct k as [kd i n [p|] ns]; reflexivity. Qed.

Lemma cmpKey_unfold a b :
  cmpKey a b =
    (String.eqb (Namespace a) (Namespace b) && String.eqb (Kind a) (Kind b)
     && Z.eqb (ID a) (ID b) && String.eqb (Name a) (Name b)
     && match Parent a, Parent b with
        | None, None => true
        | Some l, Some r => cmpKey l r
        | _, _ => false
        end)%bool.
Proof.
  destruct a as [ka ia na pa nsa], b as [kb ib nb pb nsb]; simpl.
  destruct (String.eqb nsa nsb), (String.eqb ka kb), (Z.eqb ia ib),
    (String.eqb na nb); reflexivity.
Qed.

Lemma same_level_eqb a b :
  (String.eqb (Namespace a) (Namespace b) && String.eqb (Kind a) (Kind b)
   && Z.eqb (ID a) (ID b) && String.eqb (Name a) (Name b))%bool = true
  <-> same_level a b.
Proof.
  unfold same_level.
  rewrite !andb_true_iff, !String.eqb_eq, Z.eqb_eq. tauto.
Qed.

Lemma cmpKey_levels a : forall b,
  cmpKey a b = true <-> Forall2 same_level (ancestors a) (ancestors b).
Proof.
  induction a as [kd i n ns | kd i n p ns IH] using Key_chain_ind;
    intros b; rewrite cmpKey_unfold, andb_true_iff, same_level_eqb;
    rewrite (ancestors_unfold b); cbn [Parent ancestors].
  - destruct (Parent b) as [q|].
    + split; [intros [_ H]; discriminate |].
      intros H. inversion H as [|? ? ? ? _ Ht]; subst.
      rewrite ancestors_unfold in Ht. inversion Ht.
    + split; [intros [H _]; constructor; [exact H | constructor] |].
      intros H. inversion H; subst. split; [assumption | reflexivity].
  - destruct (Parent b) as [q|].
    + rewrite IH. split.
      * intros [H1 H2]. constructor; assumption.
      * intros H. inversion H; subst. split; assumption.
    + split; [intros [_ H]; discriminate |].
      intros H. inversion H as [|? ? ? ? _ Ht]; subst.
      rewrite ancestors_unfold in Ht. inversion Ht.
Qed.

Lemma same_level_refl k : same_level k k.
Proof. repeat split. Qed.

Lemma Forall2_same_length {A B} (R : A -> B -> Prop) l1 l2 :
  Forall2 R l1 l2 -> length l1 = length l2.
Proof. induction 1; simpl; congruence. Qed.

(** C3: [cmpKey a b] holds exactly when the two ancestor chains, walked from
    the leaf to the root, agree level by level on namespace, kind, ID and
    name and end at the same depth; [cmpKey k k] always holds, and keys of
    different depth are never equal. *)
Theorem cmpKey_spec :
  (forall a b, cmpKey a b = true <->
               Forall2 same_level (ancestors a) (ancestors b)) /\
  (forall k, cmpKey k k = true) /\
  (forall a b, depth a <> depth b -> cmpKey a b = false).
Proof.
  split; [exact cmpKey_levels |]. split.
  - intros k. apply cmpKey_levels.
    induction (ancestors k); constructor; auto using same_level_refl.
  - intros a b Hd. destruct (cmpKey a b) eqn:E; [|reflexivity].
    apply cmpKey_levels, Forall2_same_length in E. contradiction.
Qed.

(** ** Runs of the wrapper

    A run is unfolded into the outside calls it makes, and split on what
    each call returns. *)

Ltac unfold_run H :=
cbv [mbind M_bind call mret M_ret panic] in H.

Ltac split_step H :=
match type of H with
| context [match ?x with _ => _ end] =>
    lazymatch x with
    | context [match _ with _ => _ end] => fail
    | _ => destruct x eqn:?
    end
end.

Ltac split_run H := repeat (split_step H; cbv beta iota zeta in H).

Section WrapperProperties.
Context {T W Tx PendingKey Commit : Type}.
Context `{!Object T W} `{!Client T W Tx PendingKey Commit}.
Variable db : DSEnt.
#[local] Abbreviation ns := (namespace db).
#[local] Existing Instances M_bind M_ret.
#[local] Abbreviation Ev := (@Event T Tx PendingKey Commit).
#[local] Abbreviation Run := (@M T W Tx PendingKey Commit).

Lemma buildKeys_run objs : forall w,
  exists r w' (evs : list Ev), buildKeys db objs w = (Return r, w', evs) /\
    match r with
    | inl keys => built_keys evs = keys /\ length keys = length objs /\
                  Forall2 (fun o k => In (EvBuildKey o ns (inl k)) evs) objs keys
    | inr _ => True
    end.
Proof.
  induction objs as [|obj rest IH]; intros w.
  - exists (inl []), w, []. repeat split. constructor.
  - cbn [buildKeys]. cbv [mbind M_bind call mret M_ret].
    destruct (BuildKey obj ns w) as [[key | err] w1] eqn:Ek; cbv beta iota zeta.
    + destruct (IH w1) as (r & w' & evs & E & Hr). rewrite E.
      destruct r as [keys | err]; cbv beta iota zeta.
      * eexists _, _, _. split; [reflexivity |].
        destruct Hr as (Hb & Hl & Hf). cbn. rewrite app_nil_r.
        split; [f_equal; exact Hb |]. split; [congruence |].
        constructor; [left; reflexivity |].
        eapply Forall2_impl; [exact Hf |]. cbn. intros. right. assumption.
      * eexists _, _, _. split; [reflexivity | exact I].
    + eexists _, _, _. split; [reflexivity | exact I].
Qed.


Lemma hook_errors_cons o k r (evs : list Ev) :
  hook_errors (EvLoadKey o k r :: evs) =
    match r with Some e => e :: hook_errors evs | None => hook_errors evs end.
Proof. destruct r; reflexivity. Qed.

Lemma option_eta {A} (x : option A) :
  match x with Some e => Some e | None => None end = x.
Proof. destruct x; reflexivity. Qed.

Lemma SetNS_uniform key ns' : uniform_ns ns' (SetNS key ns').
Proof.
  unfold uniform_ns.
  induction key as [kd i n ns0 | kd i n p ns0 IH] using Key_chain_ind.
  - repeat constructor.
  - cbn. constructor; [reflexivity | exact IH].
Qed.

Lemma RunInTransaction_loop_retried {C : Type}
    (f : Tx -> C -> Run (option error * C)) n c w n' c' w' (evs : list Ev) :
  retried f n c w n' c' w' evs ->
  RunInTransaction_loop n f c w =
    (let '(out, w2, evs2) := RunInTransaction_loop n' f c' w' in
     (out, w2, evs ++ evs2)).
Proof.
  induction 1 as [n c w | n c w tx w1 c1 w2 evs w3 n' c' w' evs'
                            Hnew Hf Hcommit _ IH].
  - destruct (RunInTransaction_loop n f c w) as [[out w2] evs2]. reflexivity.
  - cbn [RunInTransaction_loop]. cbv [mbind M_bind call mret M_ret].
    rewrite Hnew. cbv beta iota zeta. rewrite Hf. cbv beta iota zeta.
    rewrite Hcommit. cbv beta iota zeta. rewrite IH.
    destruct (RunInTransaction_loop n' f c' w') as [[[out|] w4] evs4];
      cbn; rewrite <- ?app_assoc; reflexivity.
Qed.



(** C2: when the update function returns an error [e] with
    [errors.Is(e, ErrUpdateAbort)], [UpdateTx] returns the value the update
    function produced with a nil error, and hands no mutation to the
    transaction. *)
Theorem UpdateTx_abort tx obj upd crt w out w' (evs : list Ev) o o' e :
  UpdateTx db tx obj upd crt w = (out, w', evs) ->
  In (EvUpdateFunc o (o', Some e)) evs ->
  errors_Is (Some e) ErrUpdateAbort = true ->
  out = Return (o', None) /\ mutations_issued evs = [].
Proof.
  intros H Hin Habort. unfold UpdateTx in H. unfold_run H.
  split_run H; simplify_eq; simpl in *.
  all: try tauto.
  all: intuition (simplify_eq; auto; try congruence).
Qed.

(** C4, as amended: a run of [UpdateTx] that returns a nil error either was
    aborted by the update function, and then issued no mutation, or issued
    exactly one mutation, for the derived key and the returned entity.  That
    mutation is an insert exactly when the read reported not-found and the
    create-fallback ran; otherwise it is an update, which the store refuses
    when no row exists under the key. *)
Theorem UpdateTx_single_mutation tx obj upd crt w o' w' (evs : list Ev) :
  UpdateTx db tx obj upd crt w = (Return (o', None), w', evs) ->
  (exists o e, In (EvUpdateFunc o (o', Some e)) evs /\
               errors_Is (Some e) ErrUpdateAbort = true /\
               mutations_issued evs = [])
  \/
  (exists key m, hd_error evs = Some (EvBuildKey obj ns (inl key)) /\
     mutations_issued evs = [m] /\ mutation_key m = key /\ mutation_src m = o' /\
     (is_insert m = true <->
        (In (EvTxGet tx key obj (Some ErrNoSuchEntity)) evs /\ exists o r, In (EvCreateFunc o r) evs)) /\
     (is_insert m = false ->
        m = NewUpdate key o' /\
        forall rows : gmap Key T,
          rows !! key = None ->
          apply_mutation m rows = inr (ErrorNew "NotFound"))).
Proof.
  intros H. unfold UpdateTx in H. unfold_run H.
  split_run H; simplify_eq; simpl in *.
  all: repeat match goal with
              | E : errors_Is ?x _ = true |- _ =>
                  is_var x; destruct x; [| discriminate E]
              end.
  all: try (left; do 2 eexists; split; [|split; [eassumption | reflexivity]]; tauto).
  all: right; do 2 eexists; split; [reflexivity|]; split; [reflexivity |]; simpl.
  all: split; [reflexivity|]; split; [reflexivity|].
  - split; [split; [intros _ | reflexivity] | discriminate].
    split; [right; left; reflexivity |].
    eexists _, _. right; right; left; reflexivity.
  - split; [split; [discriminate |] |].
    + intros [Hg _].
      repeat (destruct Hg as [Hg | Hg]; [discriminate Hg |]). destruct Hg.
    + intros _. split; [reflexivity |].
      intros rows Hrow. cbn. rewrite Hrow. reflexivity.
Qed.

(** C5: when the read of the derived key reports [ErrNoSuchEntity] and no
    create-fallback is given, [UpdateTx] returns the entity with the
    not-found error; no mutation is issued and the update function is not
    called. *)
Theorem UpdateTx_not_found tx obj upd w key w1 w2 :
  BuildKey obj ns w = (inl key, w1) ->
  tx_Get tx key obj w1 = (Some ErrNoSuchEntity, w2) ->
  exists evs : list Ev,
    UpdateTx db tx obj upd None w = (Return (obj, Some ErrNotFound), w2, evs) /\
    mutations_issued evs = [] /\
    (forall o r, ~ In (EvUpdateFunc o r) evs).
Proof.
  intros Hk Hg. unfold UpdateTx. cbv [mbind M_bind call mret M_ret panic].
  rewrite Hk. cbv beta iota zeta. rewrite Hg. cbv beta iota zeta.
  eexists. split; [reflexivity |]. simpl. split; [reflexivity |].
  intros o r [?|[?|[]]]; discriminate.
Qed.

(** C6: [GetTx] turns a one-element multi-error of the batched lookup
    into the element it holds.  [Get] returns the error of the client's
    single-key lookup as it is: with a client whose single-key lookup
    reports plain errors only, the statement of the specification holds of
    [Get], and the error the caller sees is the plain error of the lookup.
    The multi-error that [Get] itself unwraps is one returned by key
    derivation. *)
Theorem single_Get_error :
  (forall tx obj w key w1 e w2,
     BuildKey obj ns w = (inl key, w1) ->
     tx_GetMulti tx [key] [obj] w1 = (Some (MultiError [e]), w2) ->
     GetTx db tx obj w =
       (Return (obj, e), w2,
        [EvBuildKey obj ns (inl key);
         EvTxGetMulti tx [key] [obj] (Some (MultiError [e])) : Ev])) /\
  (plain_lookup (T := T) (W := W) (Tx := Tx) (PendingKey := PendingKey)
     (Commit := Commit) ->
   (forall obj w, Get_unwraps_lookup_error db obj w) /\
   (forall obj w key w1,
      BuildKey obj ns w = (inl key, w1) ->
      exists err w2,
        client_Get key obj w1 = (err, w2) /\
        Get db obj w =
          (Return (obj, err), w2,
           [EvBuildKey obj ns (inl key); EvClientGet key obj err : Ev]) /\
        forall merr, err <> Some (MultiError merr))) /\
  (forall obj w e w1,
     BuildKey obj ns w = (inr (MultiError [e]), w1) ->
     Get db obj w =
       (Return (obj, e), w1, [EvBuildKey obj ns (inr (MultiError [e])) : Ev])).
Proof.
  split; [| split].
  - intros tx obj w key w1 e w2 Hk Hg. unfold GetTx, BatchGetTx.
    cbn [buildKeys]. cbv [mbind M_bind call mret M_ret].
    rewrite Hk. cbv beta iota zeta. rewrite Hg. reflexivity.
  - intros Hplain. split.
    + intros obj w key w1 e w2 _ Hg. exfalso.
      apply (Hplain key obj w1 [e]). rewrite Hg. reflexivity.
    + intros obj w key w1 Hk.
      destruct (client_Get key obj w1) as [err w2] eqn:Hg.
      exists err, w2. split; [reflexivity |]. split.
      * unfold Get. cbv [mbind M_bind call mret M_ret].
        rewrite Hk. cbv beta iota zeta. rewrite Hg. reflexivity.
      * intros merr He. apply (Hplain key obj w1 merr).
        rewrite Hg. exact He.
  - intros obj w e w1 Hk. unfold Get.
    cbv [mbind M_bind call mret M_ret].
    rewrite Hk. reflexivity.
Qed.

(** C7, as amended: [SetNS] writes the namespace into the key and every
    ancestor.  The session's key derivation returns, for each entity, the
    key the entity's [BuildKey] returned for the session's namespace, as it
    is; the keys are uniform in the namespace when [BuildKey] builds them
    with [SetNS]. *)
Theorem key_derivation_namespace :
  (forall key ns', uniform_ns ns' (SetNS key ns')) /\
  (forall objs w keys w' (evs : list Ev),
     buildKeys db objs w = (Return (inl keys), w', evs) ->
     built_keys evs = keys /\
     Forall2 (fun o k => In (EvBuildKey o ns (inl k)) evs) objs keys) /\
  (forall objs w keys w' (evs : list Ev),
     buildKeys db objs w = (Return (inl keys), w', evs) ->
     (forall o k, In (EvBuildKey o ns (inl k)) evs ->
                  exists k0, k = SetNS k0 ns) ->
     Forall (uniform_ns ns) keys).
Proof.
  split; [exact SetNS_uniform |]. split.
  - intros objs w keys w' evs E.
    destruct (buildKeys_run objs w) as (r & w1 & evs1 & E1 & Hr).
    rewrite E in E1. simplify_eq. tauto.
  - intros objs w keys w' evs E Hset.
    destruct (buildKeys_run objs w) as (r & w1 & evs1 & E1 & Hr).
    rewrite E in E1. simplify_eq. destruct Hr as (_ & _ & Hf).
    clear E. induction Hf as [|o k objs keys Hin _ IH]; constructor; [| exact IH].
    destruct (Hset _ _ Hin) as [k0 ->]. apply SetNS_uniform.
Qed.

Lemma resolveKeys_run keys : forall objs i acc w,
  (length keys + i <= length objs)%nat ->
  exists w' (evs : list Ev),
    resolveKeys keys objs i acc w =
      (Return (match last (hook_errors evs) with
               | Some e => Some e
               | None => acc
               end), w', evs) /\
    Forall is_hook evs /\
    hook_calls evs = filter has_hook (zip (drop i objs) keys).
Proof.
  induction keys as [|key rest IH]; intros objs i acc w Hlen.
  - exists w, []. cbn. split; [reflexivity |]. split; [constructor |].
    destruct (drop i objs); reflexivity.
  - cbn [resolveKeys].
    destruct (objs !! i) as [obj|] eqn:Ei;
      [| apply lookup_ge_None in Ei; cbn in Hlen; lia].
    rewrite (drop_S _ _ _ Ei). cbn [zip_with].
    rewrite filter_cons. unfold ResolveKey.
    cbv [mbind M_bind call mret M_ret].
    destruct (LoadKey obj) as [e|] eqn:El.
    + destruct (e key w) as [r w1] eqn:Ee. cbv beta iota zeta.
      destruct (IH objs (S i) (match r with Some _ => r | None => acc end) w1)
        as (w' & evs & E & Hh & Hc); [cbn in Hlen; lia |].
      exists w', (EvLoadKey obj key r :: evs). split; [| split].
      * destruct r as [e0|]; cbv beta iota zeta; rewrite E; cbn [app];
          rewrite hook_errors_cons.
        -- rewrite last_cons. destruct (last (hook_errors evs)); reflexivity.
        -- destruct (last (hook_errors evs)); reflexivity.
      * constructor; [exact I | exact Hh].
      * rewrite decide_True
          by (unfold has_hook; cbn [fst]; rewrite El; eexists; reflexivity).
        cbn. unfold hook_calls in Hc. rewrite Hc. reflexivity.
    + cbv beta iota zeta.
      destruct (IH objs (S i) acc w) as (w' & evs & E & Hh & Hc);
        [cbn in Hlen; lia |].
      rewrite E. eexists _, _. split; [reflexivity |]. split; [exact Hh |].
      rewrite decide_False
        by (unfold has_hook; cbn [fst]; rewrite El; intros [? ?]; discriminate).
      exact Hc.
Qed.

Lemma BatchCreateTx_objs tx objs w :
  exists pks err w' (evs : list Ev),
    BatchCreateTx db tx objs w = (Return (pks, objs, err), w', evs).
Proof.
  unfold BatchCreateTx. cbv [mbind M_bind call mret M_ret].
  destruct (buildKeys_run objs w) as (r & w1 & evs & E & _). rewrite E.
  destruct r as [keys | err]; cbv beta iota zeta.
  - destruct (tx_Mutate _ _ _) as [[pks | err] w2]; cbv beta iota zeta;
      eexists _, _, _, _; reflexivity.
  - eexists _, _, _, _; reflexivity.
Qed.

Lemma BatchPutTx_objs tx objs w :
  exists pks err w' (evs : list Ev),
    BatchPutTx db tx objs w = (Return (pks, objs, err), w', evs).
Proof.
  unfold BatchPutTx. cbv [mbind M_bind call mret M_ret].
  destruct (buildKeys_run objs w) as (r & w1 & evs & E & _). rewrite E.
  destruct r as [keys | err]; cbv beta iota zeta.
  - destruct (tx_Mutate _ _ _) as [[pks | err] w2]; cbv beta iota zeta;
      eexists _, _, _, _; reflexivity.
  - eexists _, _, _, _; reflexivity.
Qed.

Lemma RunInTransaction_loop_keeps {A : Type} n
    (f : Tx -> A * list T -> Run (option error * (A * list T))) :
  keeps_objs f ->
  forall c w r c' w' (evs : list Ev),
    RunInTransaction_loop n f c w = (Return (r, c'), w', evs) ->
    snd c' = snd c.
Proof.
  intros Hf. induction n as [|n IH]; intros c w r c' w' evs H.
  - cbn in H. cbv [mret M_ret] in H. congruence.
  - cbn [RunInTransaction_loop] in H. cbv [mbind M_bind call mret M_ret] in H.
    destruct (newTransaction w) as [[tx | err] w1]; cbv beta iota zeta in H;
      [| congruence].
    destruct (Hf tx c w1) as (ferr & a & w2 & evs2 & E). rewrite E in H.
    cbv beta iota zeta in H.
    destruct ferr as [err|].
    + destruct (tx_Rollback tx w2). cbv beta iota zeta in H. simplify_eq. reflexivity.
    + destruct (tx_Commit tx w2) as [[cmt | err] w3]; cbv beta iota zeta in H.
      * simplify_eq. reflexivity.
      * destruct err; cbv beta iota zeta in H; try (simplify_eq; reflexivity).
        destruct (RunInTransaction_loop n f (a, c.2) w3) as [[[[r0 c0]|] w4] evs4] eqn:E4;
          [| discriminate H].
        apply IH in E4. simplify_eq. exact E4.
Qed.

Lemma commitKeys_run cmt pks : forall i keys w,
  (i + length pks <= length keys)%nat ->
  commitKeys cmt pks i keys w =
    (Return (take i keys ++ (commit_Key cmt <$> pks)
             ++ drop (i + length pks) keys), w, ([] : list Ev)).
Proof.
  induction pks as [|pk rest IH]; intros i keys w Hlen.
  - cbn. rewrite Nat.add_0_r, take_drop. reflexivity.
  - cbn [commitKeys]. cbn [length] in Hlen.
    rewrite bool_decide_eq_true_2 by lia.
    rewrite IH by (rewrite length_insert; lia).
    rewrite (take_S_r _ _ (commit_Key cmt pk))
      by (apply list_lookup_insert_eq; lia).
    rewrite take_insert_ge by lia. rewrite drop_insert_lt by lia.
    rewrite <- app_assoc. cbn. repeat f_equal. lia.
Qed.

Lemma BatchCreate_closure_keeps : keeps_objs (BatchCreate_closure db).
Proof.
  intros tx c w. unfold BatchCreate_closure. cbv [mbind M_bind mret M_ret].
  destruct (BatchCreateTx_objs tx (snd c) w) as (pks & err & w' & evs & E).
  rewrite E. eexists _, _, _, _. reflexivity.
Qed.

Lemma BatchPut_closure_keeps : keeps_objs (BatchPut_closure db).
Proof.
  intros tx c w. unfold BatchPut_closure. cbv [mbind M_bind mret M_ret].
  destruct (BatchPutTx_objs tx (snd c) w) as (pks & err & w' & evs & E).
  rewrite E. eexists _, _, _, _. reflexivity.
Qed.

(** C8: when the transaction of [BatchCreate] (of [BatchPut]) commits, and
    the client returned one pending key per entity, the keys resolved from
    the commit and the entities are returned whatever the key hook reports.
    The hook runs once on each entity that implements it, in order, with the
    entity's resolved key; the error returned is the last error the hook
    reported, and nil when it reported none. *)
Theorem Batch_resolution_best_effort :
  (forall objs w cmt pks objs' w1 (evs1 : list Ev),
     RunInTransaction (BatchCreate_closure db) ([], objs) w =
       (Return (inl cmt, (pks, objs')), w1, evs1) ->
     length pks = length objs' ->
     exists w2 evs2,
       BatchCreate db objs w =
         (Return (commit_Key cmt <$> pks, objs, last (hook_errors evs2)),
          w2, evs1 ++ evs2) /\
       objs' = objs /\ Forall is_hook evs2 /\
       hook_calls evs2 =
         filter has_hook (zip objs (commit_Key cmt <$> pks))) /\
  (forall objs w keys w0 (evs0 : list Ev) cmt pks objs' w1 evs1,
     buildKeys db objs w = (Return (inl keys), w0, evs0) ->
     RunInTransaction (BatchPut_closure db) ([], objs) w0 =
       (Return (inl cmt, (pks, objs')), w1, evs1) ->
     length pks = length objs' ->
     exists w2 evs2,
       BatchPut db objs w =
         (Return (commit_Key cmt <$> pks, objs, last (hook_errors evs2)),
          w2, evs0 ++ evs1 ++ evs2) /\
       objs' = objs /\ Forall is_hook evs2 /\
       hook_calls evs2 =
         filter has_hook (zip objs (commit_Key cmt <$> pks))).
Proof.
  split.
  - intros objs w cmt pks objs' w1 evs1 Hrun Hlen.
    assert (objs' = objs) as ->.
    { apply (RunInTransaction_loop_keeps _ _ BatchCreate_closure_keeps)
        in Hrun. exact Hrun. }
    destruct (resolveKeys_run (commit_Key cmt <$> pks) objs 0 None w1)
      as (w2 & evs2 & E & Hh & Hc); [rewrite length_fmap; lia |].
    exists w2, evs2. rewrite drop_0 in Hc. rewrite option_eta in E.
    split; [| auto].
    unfold BatchCreate. cbv [mbind M_bind mret M_ret].
    rewrite Hrun. cbv beta iota zeta. rewrite E. cbv beta iota zeta.
    rewrite app_nil_r. reflexivity.
  - intros objs w keys w0 evs0 cmt pks objs' w1 evs1 Hkeys Hrun Hlen.
    assert (objs' = objs) as ->.
    { apply (RunInTransaction_loop_keeps _ _ BatchPut_closure_keeps)
        in Hrun. exact Hrun. }
    destruct (buildKeys_run objs w) as (r & w0' & evs0' & Ek & Hr).
    rewrite Hkeys in Ek. simplify_eq. destruct Hr as (_ & Hkl & _).
    destruct (resolveKeys_run (commit_Key cmt <$> pks) objs 0 None w1)
      as (w2 & evs2 & E & Hh & Hc); [rewrite length_fmap; lia |].
    exists w2, evs2. rewrite drop_0 in Hc. rewrite option_eta in E.
    split; [| auto].
    unfold BatchPut. cbv [mbind M_bind mret M_ret].
    rewrite Hkeys. cbv beta iota zeta. rewrite Hrun. cbv beta iota zeta.
    rewrite (commitKeys_run cmt pks 0 keys w1) by (cbn; lia).
    cbv beta iota zeta. rewrite take_0. cbn [app Nat.add].
    rewrite (drop_ge keys) by lia. rewrite !app_nil_r.
    rewrite E. cbv beta iota zeta. rewrite app_nil_r. reflexivity.
Qed.

(** C9: [CreateTx], [PutTx], [GetTx] and [DeleteTx] are the batch
    operations on the one-element list: the first pending key, the first
    entity and the error of the batch result, for [GetTx] with a
    one-element multi-error replaced by its element.  The client is taken
    to return a pending key for the mutation, and a multi-error of one
    element for one key. *)
Theorem single_entity_is_batch_of_one :
  (forall tx obj w,
     (forall pks objs w' (evs : list Ev),
        BatchCreateTx db tx [obj] w = (Return (pks, objs, None), w', evs) ->
        pks <> []) ->
     CreateTx db tx obj w = CreateTx_of_batch db tx obj w) /\
  (forall tx obj w,
     (forall pks objs w' (evs : list Ev),
        BatchPutTx db tx [obj] w = (Return (pks, objs, None), w', evs) ->
        pks <> []) ->
     PutTx db tx obj w = PutTx_of_batch db tx obj w) /\
  (forall tx obj w,
     (forall objs merr w' (evs : list Ev),
        BatchGetTx db tx [obj] w =
          (Return (objs, Some (MultiError merr)), w', evs) ->
        length merr = 1%nat) ->
     GetTx db tx obj w = GetTx_of_batch db tx obj w) /\
  (forall tx obj w,
     DeleteTx db tx obj w = DeleteTx_of_batch db tx obj w).
Proof.
  repeat split.
  - intros tx obj w Hpks. unfold CreateTx, CreateTx_of_batch.
    cbv [mbind M_bind mret M_ret].
    destruct (BatchCreateTx_objs tx [obj] w) as (pks & err & w' & evs & E).
    rewrite E. cbv beta iota zeta. destruct err as [e|]; [| ].
    + unfold BatchCreateTx in E. cbv [mbind M_bind call mret M_ret] in E.
      split_run E; simplify_eq. all: reflexivity.
    + specialize (Hpks _ _ _ _ E). destruct pks as [|pk pks]; [congruence |].
      reflexivity.
  - intros tx obj w Hpks. unfold PutTx, PutTx_of_batch.
    cbv [mbind M_bind mret M_ret].
    destruct (BatchPutTx_objs tx [obj] w) as (pks & err & w' & evs & E).
    rewrite E. cbv beta iota zeta. destruct err as [e|]; [| ].
    + unfold BatchPutTx in E. cbv [mbind M_bind call mret M_ret] in E.
      split_run E; simplify_eq. all: reflexivity.
    + specialize (Hpks _ _ _ _ E). destruct pks as [|pk pks]; [congruence |].
      reflexivity.
  - intros tx obj w Hm. unfold GetTx, GetTx_of_batch.
    cbv [mbind M_bind mret M_ret].
    destruct (BatchGetTx db tx [obj] w) as [[[[objs err]|] w'] evs] eqn:E;
      [| reflexivity].
    cbv beta iota zeta.
    assert (objs = [obj]) as ->.
    { unfold BatchGetTx in E. cbv [mbind M_bind call mret M_ret] in E.
      split_run E; simplify_eq; reflexivity. }
    destruct err as [e|]; [| reflexivity].
    destruct e; try reflexivity.
    specialize (Hm _ _ _ _ eq_refl).
    destruct merr as [|e0 [|e1 merr]]; try discriminate Hm. reflexivity.
Qed.

(** C10: [ResolveKey] returns nil and changes nothing when the entity does
    not implement the key hook; otherwise it returns what the entity's
    [LoadKey] returns for the key, and the world is as [LoadKey] left it. *)
Theorem ResolveKey_hook :
  (forall key obj w,
     LoadKey obj = None ->
     ResolveKey key obj w = (Return None, w, ([] : list Ev))) /\
  (forall key obj e w,
     LoadKey obj = Some e ->
     ResolveKey key obj w =
       (Return (fst (e key w)), snd (e key w),
        [EvLoadKey obj key (fst (e key w)) : Ev])).
Proof.
  split; intros; unfold ResolveKey; rewrite H.
  - reflexivity.
  - cbv [mbind M_bind call mret M_ret].
    destruct (e key w) as [[err|] w1]; reflexivity.
Qed.

End WrapperProperties.

(** ** The properties on the in-memory store *)

Module EmulatorRuns.
Import Emulator.

#[local] Abbreviation Ev := (@Event nat unit Key unit).

(** A key and the same key under a parent differ in depth. *)
Lemma cmpKey_spec_witness :
  cmpKey (key_of 1) (mkKey "Test" 1 "" (Some (key_of 0)) "Test") = false.
Proof.
  apply (proj2 (proj2 cmpKey_spec)). vm_compute. discriminate.
Defined.


(** The update function declines with a wrapped [ErrUpdateAbort]. *)
Lemma UpdateTx_abort_witness :
  fst (fst run_declined) = Return (0%nat, None) /\
  mutations_issued (snd run_declined) = [].
Proof.
  apply (@UpdateTx_abort _ _ _ _ _ exampleObject storeClient db
           tt 0%nat (Some decline) None w0
           (fst (fst run_declined)) (snd (fst run_declined))
           (snd run_declined) 0%nat 0%nat (Wrapf "unchanged" ErrUpdateAbort)).
  - vm_compute. reflexivity.
  - vm_compute. right. right. left. reflexivity.
  - vm_compute. reflexivity.
Defined.

(** The declined run returns a nil error and issues no mutation. *)
Lemma success_issues_one_mutation_counterexample :
  ~ @success_issues_one_mutation _ _ _ _ _ exampleObject storeClient db
      tt 0%nat (Some decline) None w0.
Proof.
  intros H.
  destruct (H 0%nat (snd (fst run_declined)) (snd run_declined))
    as [m Hm].
  - vm_compute. reflexivity.
  - vm_compute in Hm. discriminate Hm.
Qed.

(** The run that creates entity 11 issues one insert. *)
Lemma UpdateTx_single_mutation_witness :
  exists m, mutations_issued (snd run_created) = [m] /\ is_insert m = true.
Proof.
  destruct (@UpdateTx_single_mutation _ _ _ _ _ exampleObject storeClient db
              tt 1%nat (Some (set_data 5)) (Some (fresh 11)) w0
              3%nat (snd (fst run_created)) (snd run_created))
    as [(o & e & Hin & _) | (key & m & _ & Hm & _)].
  - vm_compute. reflexivity.
  - exfalso. vm_compute in Hin.
    repeat (destruct Hin as [Hin | Hin]; [discriminate Hin |]). exact Hin.
  - exists m. split; [exact Hm |]. vm_compute in Hm.
    injection Hm as <-. reflexivity.
Defined.

(** Entity 11 is missing and there is no fallback. *)
Lemma UpdateTx_not_found_witness :
  exists evs : list Ev,
    @UpdateTx _ _ _ _ _ exampleObject storeClient db tt 1%nat
      (Some (set_data 5)) None w0 =
      (Return (1%nat, Some ErrNotFound), w0, evs) /\
    mutations_issued evs = [] /\
    (forall o r, ~ In (EvUpdateFunc o r) evs).
Proof.
  apply (@UpdateTx_not_found _ _ _ _ _ exampleObject storeClient db
           tt 1%nat (Some (set_data 5)) w0 (key_of 11) w0 w0).
  - reflexivity.
  - vm_compute. reflexivity.
Defined.

(** Reading the missing entity 11, in a transaction and outside one. *)
Lemma single_Get_error_witness :
  @GetTx _ _ _ _ _ exampleObject storeClient db tt 1%nat w0 =
    (Return (1%nat, Some ErrNoSuchEntity), w0,
     [EvBuildKey 1%nat "Test" (inl (key_of 11));
      EvTxGetMulti tt [key_of 11] [1%nat]
        (Some (MultiError [Some ErrNoSuchEntity])) : Ev]) /\
  exists err w2,
    lookup_row (key_of 11) 1%nat w0 = (err, w2) /\
    @Get _ _ _ _ _ exampleObject storeClient db 1%nat w0 =
      (Return (1%nat, err), w2,
       [EvBuildKey 1%nat "Test" (inl (key_of 11));
        EvClientGet (key_of 11) 1%nat err : Ev]) /\
    forall merr, err <> Some (MultiError merr).
Proof.
  split.
  - apply (proj1 (@single_Get_error _ _ _ _ _ exampleObject storeClient db)
             tt 1%nat w0 (key_of 11) w0 (Some ErrNoSuchEntity) w0).
    + reflexivity.
    + vm_compute. reflexivity.
  - apply (proj1 (proj2 (@single_Get_error _ _ _ _ _ exampleObject
                           storeClient db))).
    + intros key dst w merr. cbn. unfold lookup_row.
      destruct (rows w !! key); discriminate.
    + reflexivity.
Defined.

(** An entity whose [BuildKey] goes through [SetNS]. *)
Lemma key_derivation_namespace_witness :
  Forall (uniform_ns "Test")
    [SetNS (NameKey "Child" "c" (Some (NameKey "Parent" "p" None))) "Test"].
Proof.
  eapply (proj2 (proj2 (@key_derivation_namespace nat World unit Key unit
                          stampedObject db))
            [0%nat] w0 _ w0).
  - vm_compute. reflexivity.
  - intros o k [Hin | []]. injection Hin as _ <-.
    exists (NameKey "Child" "c" (Some (NameKey "Parent" "p" None))).
    reflexivity.
Defined.

(** An entity whose [BuildKey] writes the namespace into the returned key
    only: the parent keeps the empty namespace. *)
Lemma derived_keys_uniform_counterexample :
  ~ @derived_keys_uniform nat World unit Key unit childObject db [0%nat] w0.
Proof.
  intros H.
  specialize (H [mkKey "Child" 0 "c" (Some (NameKey "Parent" "p" None)) "Test"]
                w0
                [EvBuildKey 0%nat "Test"
                   (inl (mkKey "Child" 0 "c"
                           (Some (NameKey "Parent" "p" None)) "Test"))]
                eq_refl).
  apply Forall_inv in H. unfold uniform_ns in H. cbn in H.
  apply Forall_inv_tail, Forall_inv in H. discriminate H.
Qed.

(** Creating entity 11 and an entity without ID: the hook refuses the
    second key, and both keys are returned. *)
Lemma Batch_resolution_best_effort_witness :
  exists (evs1 : list Ev) w2 evs2,
    @BatchCreate _ _ _ _ _ exampleObject storeClient db [1%nat; 2%nat] w0 =
      (Return ([key_of 11; key_of 0], [1%nat; 2%nat],
               last (hook_errors evs2)), w2, evs1 ++ evs2) /\
    [1%nat; 2%nat] = [1%nat; 2%nat] /\ Forall is_hook evs2 /\
    hook_calls evs2 =
      filter (@has_hook _ _ exampleObject)
        (zip [1%nat; 2%nat] [key_of 11; key_of 0]).
Proof.
  eexists.
  eapply (proj1 (@Batch_resolution_best_effort _ _ _ _ _ exampleObject
                   storeClient db)
            [1%nat; 2%nat] w0 tt [key_of 11; key_of 0] [1%nat; 2%nat]).
  - vm_compute. reflexivity.
  - reflexivity.
Defined.

(** Creating and reading entity 11 in a transaction. *)
Lemma single_entity_is_batch_of_one_witness :
  @CreateTx _ _ _ _ _ exampleObject storeClient db tt 1%nat w0 =
    @CreateTx_of_batch _ _ _ _ _ exampleObject storeClient db tt 1%nat w0 /\
  @GetTx _ _ _ _ _ exampleObject storeClient db tt 1%nat w0 =
    @GetTx_of_batch _ _ _ _ _ exampleObject storeClient db tt 1%nat w0.
Proof.
  split.
  - apply (proj1 (@single_entity_is_batch_of_one _ _ _ _ _ exampleObject
                    storeClient db)).
    intros pks objs w' evs H. vm_compute in H. injection H as <- _ _ _.
    discriminate.
  - apply (proj1 (proj2 (proj2 (@single_entity_is_batch_of_one _ _ _ _ _
                                  exampleObject storeClient db)))).
    intros objs merr w' evs H. vm_compute in H. injection H as _ <- _ _.
    reflexivity.
Defined.

(** An entity without the hook, and one whose hook refuses the key. *)
Lemma ResolveKey_hook_witness :
  @ResolveKey nat World unit Key unit childObject (key_of 1) 0%nat w0 =
    (Return None, w0, ([] : list Ev)) /\
  fst (fst (@ResolveKey nat World unit Key unit exampleObject
              (key_of 0) 2%nat w0)) =
    Return (Some (ErrorNew "incomplete key")).
Proof.
  split.
  - apply (proj1 (@ResolveKey_hook nat World unit Key unit childObject)).
    reflexivity.
  - rewrite (proj2 (@ResolveKey_hook nat World unit Key unit exampleObject)
               (key_of 0) 2%nat (example_LoadKey 2%nat) w0 eq_refl).
    reflexivity.
Defined.
End EmulatorRuns.

(** * More properties *)

(** ** Keys *)

Lemma cmpKey_eq a : forall b, cmpKey a b = true <-> a = b.
Proof.
  induction a as [kd i n ns | kd i n p ns IH] using Key_chain_ind;
    intros [kd' i' n' [q|] ns']; rewrite cmpKey_unfold;
    cbn [Namespace Kind ID Name Parent];
    rewrite ?andb_true_iff, ?String.eqb_eq, ?Z.eqb_eq, ?IH.
  - split; [intros [_ H]; discriminate H | intros H; discriminate H].
  - split; [intros [[[[-> ->] ->] ->] _]; reflexivity |].
    intros H; injection H as -> -> -> ->. tauto.
  - split; [intros [[[[-> ->] ->] ->] ->]; reflexivity |].
    intros H; injection H as -> -> -> -> ->. tauto.
  - split; [intros [_ H]; discriminate H | intros H; discriminate H].
Qed.

(** X1: [cmpKey] holds exactly for keys that are the same at every level:
    it is an equivalence (symmetric, transitive) on keys. *)
Theorem cmpKey_equivalence :
  (forall a b, cmpKey a b = true <-> a = b) /\
  (forall a b, cmpKey a b = cmpKey b a) /\
  (forall a b c, cmpKey a b = true -> cmpKey b c = true -> cmpKey a c = true).
Proof.
  split; [intros; apply cmpKey_eq |]. split.
  - intros a b. destruct (cmpKey a b) eqn:E1, (cmpKey b a) eqn:E2; try reflexivity.
    + apply cmpKey_eq in E1. subst. rewrite (proj2 (cmpKey_eq b b) eq_refl) in E2. discriminate.
    + apply cmpKey_eq in E2. subst. rewrite (proj2 (cmpKey_eq a a) eq_refl) in E1. discriminate.
  - intros a b c H1 H2. apply cmpKey_eq in H1, H2. subst. apply cmpKey_eq. reflexivity.
Qed.

Lemma ancestors_SetNS k ns :
  ancestors (SetNS k ns) = (fun x => SetNS x ns) <$> ancestors k.
Proof.
  induction k as [kd i n ns0 | kd i n p ns0 IH] using Key_chain_ind.
  - reflexivity.
  - cbn. rewrite IH. reflexivity.
Qed.

Lemma SetNS_level k ns :
  Kind (SetNS k ns) = Kind k /\ ID (SetNS k ns) = ID k /\
  Name (SetNS k ns) = Name k /\ Namespace (SetNS k ns) = ns.
Proof. destruct k as [kd i n [p|] ns0]; repeat split. Qed.

Lemma SetNS_SetNS k a b : SetNS (SetNS k a) b = SetNS k b.
Proof.
  induction k as [kd i n ns0 | kd i n p ns0 IH] using Key_chain_ind.
  - reflexivity.
  - cbn. rewrite IH. reflexivity.
Qed.

Lemma SetNS_fixed k ns : SetNS k ns = k <-> uniform_ns ns k.
Proof.
  unfold uniform_ns.
  induction k as [kd i n ns0 | kd i n p ns0 IH] using Key_chain_ind.
  - cbn. split.
    + intros H. injection H as ->. repeat constructor.
    + intros H. apply Forall_inv in H. cbn in H. subst. reflexivity.
  - cbn. split.
    + intros H. injection H as Hp ->. constructor; [reflexivity | apply IH, Hp].
    + intros H. apply Forall_cons in H as [Hns Hrest]. cbn in Hns. subst.
      apply IH in Hrest. rewrite Hrest. reflexivity.
Qed.

(** X2: [SetNS] changes namespaces only: kind, ID, name and depth of every
    level stay, every level gets the namespace, a second [SetNS] overrides
    the first, and a key is left as it is exactly when it is already
    uniform in that namespace.  Two keys stamped with one namespace are
    equivalent exactly when they agree on kind, ID and name at every level. *)
Theorem SetNS_only_namespace :
  (forall k ns,
     Forall2 same_element (ancestors (SetNS k ns)) (ancestors k) /\
     uniform_ns ns (SetNS k ns)) /\
  (forall k a b, SetNS (SetNS k a) b = SetNS k b) /\
  (forall k ns, SetNS k ns = k <-> uniform_ns ns k) /\
  (forall a b ns,
     cmpKey (SetNS a ns) (SetNS b ns) = true <->
     Forall2 same_element (ancestors a) (ancestors b)).
Proof.
  split; [| split; [exact SetNS_SetNS | split; [exact SetNS_fixed |]]].
  - intros k ns. split.
    + rewrite ancestors_SetNS. apply Forall2_fmap_l, Forall_Forall2_diag.
      apply Forall_forall. intros x _. unfold same_element.
      destruct (SetNS_level x ns) as (H1 & H2 & H3 & _). auto.
    + unfold uniform_ns. rewrite ancestors_SetNS. apply Forall_fmap.
      apply Forall_forall. intros x _. cbn. apply SetNS_level.
  - intros a b ns. rewrite cmpKey_levels, !ancestors_SetNS, Forall2_fmap.
    split; intros H; (eapply Forall2_impl; [exact H |]); intros x y;
      unfold same_level, same_element;
      destruct (SetNS_level x ns) as (Hx1 & Hx2 & Hx3 & Hx4);
      destruct (SetNS_level y ns) as (Hy1 & Hy2 & Hy3 & Hy4);
      rewrite Hx1, Hx2, Hx3, Hx4, Hy1, Hy2, Hy3, Hy4; tauto.
Qed.

(** ** Runs of the transactional operations *)

Ltac in_events H :=
  repeat (destruct H as [H | H]; [try discriminate H |]);
  try (lazymatch type of H with False => destruct H end).

Section WrapperRuns.
Context {T W Tx PendingKey Commit : Type}.
Context `{!Object T W} `{!Client T W Tx PendingKey Commit}.
Variable db : DSEnt.
#[local] Abbreviation ns := (namespace db).
#[local] Existing Instances M_bind M_ret.
#[local] Abbreviation Ev := (@Event T Tx PendingKey Commit).
#[local] Abbreviation Run := (@M T W Tx PendingKey Commit).

Lemma cmpKey_refl k : cmpKey k k = true.
Proof.
  apply cmpKey_levels. induction (ancestors k); constructor;
    auto using same_level_refl.
Qed.

Lemma buildKeys_trace objs : forall w out w' (evs : list Ev),
  buildKeys db objs w = (out, w', evs) ->
  (exists keys,
     out = Return (inl keys) /\ length keys = length objs /\
     evs = zip_with (fun o k => EvBuildKey o ns (inl k)) objs keys)
  \/
  (exists e keys o,
     out = Return (inr e) /\ objs !! length keys = Some o /\
     evs = zip_with (fun o k => EvBuildKey o ns (inl k))
             (take (length keys) objs) keys
           ++ [EvBuildKey o ns (inr e)]).
Proof.
  induction objs as [|obj rest IH]; intros w out w' evs H.
  - cbn in H. cbv [mret M_ret] in H. simplify_eq. left. exists []. auto.
  - cbn [buildKeys] in H. cbv [mbind M_bind call mret M_ret] in H.
    destruct (BuildKey obj ns w) as [[key | err] w1];
      cbv beta iota zeta in H.
    + destruct (buildKeys db rest w1) as [[out1 w2] evs1] eqn:E.
      destruct (IH _ _ _ _ E)
        as [(keys & -> & Hl & ->) | (e & keys & o & -> & Ho & ->)];
        cbv beta iota zeta in H; simplify_eq.
      * left. exists (key :: keys). cbn. rewrite app_nil_r, Hl. auto.
      * right. exists e, (key :: keys), o. cbn. rewrite app_nil_r. auto.
    + simplify_eq. right. exists err, [], obj. auto.
Qed.

(** X3: [buildKeys] asks the entities for their keys in order and makes no
    other call.  It returns one key per entity, or the first error a
    [BuildKey] reports, and then the entities after that one are not
    asked. *)
Theorem buildKeys_first_error objs w :
  exists r w' (evs : list Ev),
    buildKeys db objs w = (Return r, w', evs) /\
    match r with
    | inl keys =>
        length keys = length objs /\
        evs = zip_with (fun o k => EvBuildKey o ns (inl k)) objs keys
    | inr e =>
        exists keys o,
          objs !! length keys = Some o /\
          evs = zip_with (fun o k => EvBuildKey o ns (inl k))
                  (take (length keys) objs) keys
                ++ [EvBuildKey o ns (inr e)]
    end.
Proof.
  revert w. induction objs as [|obj rest IH]; intros w.
  - exists (inl []), w, []. repeat split.
  - cbn [buildKeys]. cbv [mbind M_bind call mret M_ret].
    destruct (BuildKey obj ns w) as [[key | err] w1] eqn:Ek; cbv beta iota zeta.
    + destruct (IH w1) as (r & w' & evs & E & Hr). rewrite E.
      destruct r as [keys | err]; cbv beta iota zeta.
      * eexists _, _, _. split; [reflexivity |]. destruct Hr as [Hl ->].
        cbn. rewrite app_nil_r. split; [congruence | reflexivity].
      * eexists _, _, _. split; [reflexivity |].
        destruct Hr as (keys & o & Ho & ->).
        exists (key :: keys), o.
        split; [exact Ho | cbn; rewrite app_nil_r; reflexivity].
    + eexists _, _, _. split; [reflexivity |].
      exists [], obj. split; reflexivity.
Qed.

(** X4: [BatchCreateTx] and [BatchPutTx] never panic and return the
    entities they were given.  They ask the entities for their keys, in
    order.  When a [BuildKey] fails the run ends there, with that error and
    nothing handed to the transaction; otherwise the one call that follows
    is [tx.Mutate], with one insert (upsert) per entity in order, entity
    [i] under the key it returned.  The pending keys are those of
    [tx.Mutate]; any error comes with nil pending keys. *)
Theorem batch_write_tx tx objs w :
  batch_write_run db NewInsert tx objs (BatchCreateTx db tx objs w) /\
  batch_write_run db NewUpsert tx objs (BatchPutTx db tx objs w).
Proof.
  split.
  all: unfold batch_write_run, BatchCreateTx, BatchPutTx;
    cbv [mbind M_bind call mret M_ret];
    destruct (buildKeys db objs w) as [[out w1] evs] eqn:E;
    apply buildKeys_trace in E
      as [(keys & -> & Hl & ->) | (e & keys & o & -> & Ho & ->)];
    cbv beta iota zeta.
  1, 3: left; destruct (tx_Mutate _ _ _) as [r w2];
    exists keys, r, w2; (split; [exact Hl |]);
    destruct r; cbn; rewrite ?app_nil_r; reflexivity.
  all: right; exists keys, o, e, w1; (split; [exact Ho |]);
    rewrite app_nil_r; reflexivity.
Qed.

(** X5: an error of the create-fallback ends [UpdateTx] with that error
    and the fallback's value: the update function is not called and
    nothing is written, even when the error is [ErrUpdateAbort].  An error
    of the update function other than an abort is returned with the
    function's value, and nothing is written. *)
Theorem UpdateTx_callback_error tx obj upd crt w out w' (evs : list Ev) :
  UpdateTx db tx obj upd crt w = (out, w', evs) ->
  (forall o o' e,
     In (EvCreateFunc o (o', Some e)) evs ->
     out = Return (o', Some e) /\ mutations_issued evs = [] /\
     forall o2 r, ~ In (EvUpdateFunc o2 r) evs) /\
  (forall o o' e,
     In (EvUpdateFunc o (o', Some e)) evs ->
     errors_Is (Some e) ErrUpdateAbort = false ->
     out = Return (o', Some e) /\ mutations_issued evs = []).
Proof.
  intros H. unfold UpdateTx in H. unfold_run H.
  split_run H; simplify_eq; simpl in *.
  all: split; [intros co co' ce Hin | intros co co' ce Hin Hab].
  all: in_events Hin; simplify_eq.
  all: try (split; [reflexivity |]); try (split; [reflexivity |]).
  all: try reflexivity; try congruence.
  all: try (intros co2 cr Hin2; in_events Hin2).
  all: simpl in *; congruence.
Qed.

(** X6: only [ErrNoSuchEntity] itself is taken for not-found.  Any other
    error of the read, a wrapped [ErrNoSuchEntity] too, is returned with
    the entity; no callback runs and nothing is written. *)
Theorem UpdateTx_read_error tx obj upd crt w out w' (evs : list Ev)
    tx' key o e :
  UpdateTx db tx obj upd crt w = (out, w', evs) ->
  In (EvTxGet tx' key o (Some e)) evs ->
  e <> ErrNoSuchEntity ->
  out = Return (obj, Some e) /\ mutations_issued evs = [] /\
  (forall o2 r, ~ In (EvCreateFunc o2 r) evs) /\
  (forall o2 r, ~ In (EvUpdateFunc o2 r) evs).
Proof.
  intros H Hin Hne. unfold UpdateTx in H. unfold_run H.
  split_run H; simplify_eq; simpl in *.
  all: in_events Hin; simplify_eq; try congruence.
  all: repeat split; try (intros co2 cr Hin2; in_events Hin2).
Qed.

(** X7: whenever an entity's [BuildKey] fails in a run of [UpdateTx], at
    the start or after a callback, the run ends there: it returns that
    entity and that error, and nothing is written. *)
Theorem UpdateTx_key_error tx obj upd crt w out w' (evs : list Ev) o e :
  UpdateTx db tx obj upd crt w = (out, w', evs) ->
  In (EvBuildKey o ns (inr e)) evs ->
  out = Return (o, Some e) /\ mutations_issued evs = [] /\
  last evs = Some (EvBuildKey o ns (inr e)).
Proof.
  intros H Hin. unfold UpdateTx in H. unfold_run H.
  split_run H; simplify_eq; simpl in *.
  all: in_events Hin; simplify_eq; repeat split.
Qed.

(** X8: [UpdateTx] writes at most once.  What it writes goes under the key
    derived at the start, holds the value the update function returned,
    and is the last call of the run, whose result decides the error; and
    then every key derived in the run is equivalent to the first. *)
Theorem UpdateTx_key_stable tx obj upd crt w out w' (evs : list Ev) m :
  UpdateTx db tx obj upd crt w = (out, w', evs) ->
  In m (mutations_issued evs) ->
  exists key o r,
    hd_error evs = Some (EvBuildKey obj ns (inl key)) /\
    mutations_issued evs = [m] /\
    mutation_key m = key /\
    In (EvUpdateFunc o (mutation_src m, None)) evs /\
    last evs = Some (EvTxMutate tx [m] r) /\
    out = Return (mutation_src m,
                  match r with inl _ => None | inr e => Some e end) /\
    forall o2 k, In (EvBuildKey o2 ns (inl k)) evs -> cmpKey key k = true.
Proof.
  intros H Hin. unfold UpdateTx in H. unfold_run H.
  split_run H; simplify_eq; simpl in *.
  all: in_events Hin; simplify_eq.
  all: eexists _, _, _; split; [reflexivity |]; split; [reflexivity |].
  all: split; [reflexivity |]; split; [tauto |]; split; [reflexivity |].
  all: split; [reflexivity |].
  all: intros co2 ck Hin2; in_events Hin2; simplify_eq.
  all: try (apply negb_false_iff; assumption).
  all: apply cmpKey_refl.
Qed.

(** X9: [UpdateTx] panics only for a nil update function.  With a nil
    update function it never succeeds and never writes: it panics exactly
    when the run gets as far as the update step (the entity was read, or
    created under an equivalent key), and otherwise returns the earlier
    error. *)
Theorem UpdateTx_nil_update tx obj upd crt w out w' (evs : list Ev) :
  UpdateTx db tx obj upd crt w = (out, w', evs) ->
  (out = Panic -> upd = None) /\
  (upd = None ->
     mutations_issued evs = [] /\
     (forall o r, ~ In (EvUpdateFunc o r) evs) /\
     (forall o, out <> Return (o, None)) /\
     (out = Panic <->
        exists key,
          hd_error evs = Some (EvBuildKey obj ns (inl key)) /\
          (last evs = Some (EvTxGet tx key obj None) \/
           exists o k, last evs = Some (EvBuildKey o ns (inl k)) /\
                       cmpKey key k = true))).
Proof.
  intros H. unfold UpdateTx in H. unfold_run H.
  split_run H; simplify_eq; simpl in *.
  all: split; [intros Hp; try discriminate Hp; reflexivity |].
  all: intros Hu; try discriminate Hu.
  all: split; [reflexivity |].
  all: split; [intros co cr Hin; in_events Hin |].
  all: split; [intros co; discriminate |].
  all: split; [intros Hp; try discriminate Hp |].
  all: try (intros (key & Hhd & [Hl | (co & ck & Hl & Hc)]);
            simplify_eq; try discriminate Hl;
            rewrite ?negb_true_iff in *; congruence).
  - eexists. split; [reflexivity |]. right. eexists _, _.
    split; [reflexivity |]. apply negb_false_iff. assumption.
  - eexists. split; [reflexivity |]. left. reflexivity.
Qed.

Lemma only_key_derivation_zip (objs : list T) keys :
  only_key_derivation db
    (zip_with (fun o k => EvBuildKey o ns (inl k) : Ev) objs keys).
Proof.
  unfold only_key_derivation. revert keys.
  induction objs as [|x objs IH]; intros [|k keys];
    cbn; constructor; eauto.
Qed.

Lemma only_key_derivation_failed (objs : list T) keys o e :
  only_key_derivation db
    (zip_with (fun o k => EvBuildKey o ns (inl k) : Ev) objs keys
     ++ [EvBuildKey o ns (inr e)]).
Proof.
  apply Forall_app. split; [| repeat constructor; eauto].
  apply only_key_derivation_zip.
Qed.

(** X13: [BatchGetTx] never panics and returns the entities it was given.
    It asks the entities for their keys, in order.  When a [BuildKey]
    fails the run ends there with that error, without a lookup; otherwise
    the one call that follows is [tx.GetMulti], with the key of entity [i]
    at place [i] and the entities as destination, and its error is
    returned as it is, a multi-error too. *)
Theorem BatchGetTx_run tx objs w :
  (exists keys err w',
     length keys = length objs /\
     BatchGetTx db tx objs w =
       (Return (objs, err), w',
        zip_with (fun o k => EvBuildKey o ns (inl k)) objs keys
        ++ [EvTxGetMulti tx keys objs err : Ev]))
  \/
  (exists keys o e w',
     objs !! length keys = Some o /\
     BatchGetTx db tx objs w =
       (Return (objs, Some e), w',
        zip_with (fun o k => EvBuildKey o ns (inl k))
          (take (length keys) objs) keys
        ++ [EvBuildKey o ns (inr e) : Ev])).
Proof.
  unfold BatchGetTx. cbv [mbind M_bind call mret M_ret].
  destruct (buildKeys db objs w) as [[out w1] evs] eqn:E.
  apply buildKeys_trace in E
    as [(keys & -> & Hl & ->) | (e & keys & o & -> & Ho & ->)];
    cbv beta iota zeta.
  - left. destruct (tx_GetMulti _ _ _ _) as [err w2].
    exists keys, err, w2. split; [exact Hl |].
    destruct err; cbn; rewrite ?app_nil_r; reflexivity.
  - right. exists keys, o, e, w1. split; [exact Ho |].
    rewrite app_nil_r. reflexivity.
Qed.

Lemma BatchGetTx_returns tx objs w :
  exists err w' (evs : list Ev),
    BatchGetTx db tx objs w = (Return (objs, err), w', evs).
Proof.
  unfold BatchGetTx. cbv [mbind M_bind call mret M_ret].
  destruct (buildKeys db objs w) as [[out w1] evs] eqn:E.
  apply buildKeys_trace in E
    as [(keys & -> & _ & _) | (e & keys & o & -> & _ & _)];
    cbv beta iota zeta.
  - destruct (tx_GetMulti _ _ _ _) as [[e|] w2]; eexists _, _, _;
      reflexivity.
  - eexists _, _, _. reflexivity.
Qed.

(** X14: [GetTx] returns the entity it was given.  Of a multi-error it
    returns the first element, whatever follows and even when that element
    is nil; on a multi-error without elements it panics. *)
Theorem GetTx_outcome tx obj w :
  exists err w' (evs : list Ev),
    BatchGetTx db tx [obj] w = (Return ([obj], err), w', evs) /\
    GetTx db tx obj w =
      (match err with
       | Some (MultiError []) => Panic
       | Some (MultiError (e :: _)) => Return (obj, e)
       | _ => Return (obj, err)
       end, w', evs).
Proof.
  destruct (BatchGetTx_returns tx [obj] w) as (err & w' & evs & E).
  exists err, w', evs. split; [exact E |].
  unfold GetTx. cbv [mbind M_bind mret M_ret]. rewrite E.
  cbv beta iota zeta.
  destruct err as [[| | | | [|e merr] | |]|]; cbn; rewrite ?app_nil_r;
    reflexivity.
Qed.

(** X15: [BatchDeleteTx] never panics.  It asks the entities for their
    keys, in order.  When a [BuildKey] fails the run ends there with that
    error and nothing is deleted; otherwise the one call that follows is
    [tx.DeleteMulti], with the key of entity [i] at place [i], and what it
    reports is returned. *)
Theorem BatchDeleteTx_run tx objs w :
  (exists keys err w',
     length keys = length objs /\
     BatchDeleteTx db tx objs w =
       (Return err, w',
        zip_with (fun o k => EvBuildKey o ns (inl k)) objs keys
        ++ [EvTxDeleteMulti tx keys err : Ev]))
  \/
  (exists keys o e w',
     objs !! length keys = Some o /\
     BatchDeleteTx db tx objs w =
       (Return (Some e), w',
        zip_with (fun o k => EvBuildKey o ns (inl k))
          (take (length keys) objs) keys
        ++ [EvBuildKey o ns (inr e) : Ev])).
Proof.
  unfold BatchDeleteTx. cbv [mbind M_bind call mret M_ret].
  destruct (buildKeys db objs w) as [[out w1] evs] eqn:E.
  apply buildKeys_trace in E
    as [(keys & -> & Hl & ->) | (e & keys & o & -> & Ho & ->)];
    cbv beta iota zeta.
  - left. destruct (tx_DeleteMulti _ _ _) as [err w2].
    exists keys, err, w2. split; [exact Hl | reflexivity].
  - right. exists keys, o, e, w1. split; [exact Ho |].
    rewrite app_nil_r. reflexivity.
Qed.

Lemma hook_calls_app (a b : list Ev) :
  hook_calls (a ++ b) = hook_calls a ++ hook_calls b.
Proof. unfold hook_calls. apply omap_app. Qed.

Lemma hook_calls_keys (evs : list Ev) :
  only_key_derivation db evs -> hook_calls evs = [].
Proof.
  induction 1 as [|ev evs (o & r & ->) _ IH]; [reflexivity | exact IH].
Qed.

Lemma buildKeys_only_keys objs w out w' (evs : list Ev) :
  buildKeys db objs w = (out, w', evs) -> only_key_derivation db evs.
Proof.
  intros H.
  apply buildKeys_trace in H
    as [(keys & _ & _ & ->) | (e & keys & o & _ & _ & ->)].
  - apply only_key_derivation_zip.
  - apply only_key_derivation_failed.
Qed.

Lemma RunInTransaction_loop_hook_free {C : Type} n
    (f : Tx -> C -> Run (option error * C)) :
  hook_free f ->
  forall c w out w' (evs : list Ev),
    RunInTransaction_loop n f c w = (out, w', evs) -> hook_calls evs = [].
Proof.
  intros Hf. induction n as [|n IH]; intros c w out w' evs H.
  - cbn in H. cbv [mret M_ret] in H. simplify_eq. reflexivity.
  - cbn [RunInTransaction_loop] in H.
    cbv [mbind M_bind call mret M_ret] in H.
    destruct (newTransaction w) as [[tx | err] w1]; cbv beta iota zeta in H;
      [| simplify_eq; reflexivity].
    destruct (f tx c w1) as [[[[ferr c']|] w2] evs2] eqn:Ef;
      cbv beta iota zeta in H; apply Hf in Ef.
    + destruct ferr as [err|].
      * destruct (tx_Rollback tx w2). cbv beta iota zeta in H.
        simplify_eq. rewrite !hook_calls_app, Ef. reflexivity.
      * destruct (tx_Commit tx w2) as [[cmt | err] w3];
          cbv beta iota zeta in H.
        -- simplify_eq. rewrite !hook_calls_app, Ef. reflexivity.
        -- destruct err; cbv beta iota zeta in H;
             try (simplify_eq; rewrite !hook_calls_app, Ef;
                  reflexivity).
           destruct (RunInTransaction_loop n f c' w3)
             as [[o4 w4] evs4] eqn:E4.
           apply IH in E4. simplify_eq.
           rewrite !hook_calls_app, Ef, E4. reflexivity.
    + simplify_eq. rewrite !hook_calls_app, Ef. reflexivity.
Qed.

Lemma batch_write_hook_free :
  hook_free (BatchCreate_closure db) /\ hook_free (BatchPut_closure db).
Proof.
  split; intros tx c w out w' evs H.
  all: unfold BatchCreate_closure, BatchCreateTx, BatchPut_closure,
         BatchPutTx in H;
    cbv [mbind M_bind call mret M_ret] in H;
    destruct (buildKeys db (snd c) w) as [[[r|] w1] evs1] eqn:E;
    apply buildKeys_only_keys, hook_calls_keys in E;
    cbv beta iota zeta in H.
  all: try (simplify_eq; exact E).
  all: destruct r as [keys | e]; cbv beta iota zeta in H;
    [destruct (tx_Mutate _ _ _) as [[pks | e] w2];
       cbv beta iota zeta in H |];
    simplify_eq; rewrite ?app_nil_r, ?hook_calls_app, E; reflexivity.
Qed.

(** X10: when the transaction of [BatchCreate] or [BatchPut] fails, for
    whatever reason, the call returns nil keys, the entities and that
    error, and the key hook runs on no entity.  [BatchPut] derives the
    keys before it opens the transaction: when that fails, it has made no
    call of the client. *)
Theorem batch_failure_returns_no_keys :
  (forall objs w err c' w1 (evs1 : list Ev),
     RunInTransaction (BatchCreate_closure db) ([], objs) w =
       (Return (inr err, c'), w1, evs1) ->
     BatchCreate db objs w = (Return ([], objs, Some err), w1, evs1) /\
     hook_calls evs1 = []) /\
  (forall objs w e w1 (evs1 : list Ev),
     buildKeys db objs w = (Return (inr e), w1, evs1) ->
     BatchPut db objs w = (Return ([], objs, Some e), w1, evs1) /\
     only_key_derivation db evs1) /\
  (forall objs w keys w0 (evs0 : list Ev) err c' w1 evs1,
     buildKeys db objs w = (Return (inl keys), w0, evs0) ->
     RunInTransaction (BatchPut_closure db) ([], objs) w0 =
       (Return (inr err, c'), w1, evs1) ->
     BatchPut db objs w = (Return ([], objs, Some err), w1, evs0 ++ evs1) /\
     hook_calls (evs0 ++ evs1) = []).
Proof.
  destruct batch_write_hook_free as [Hc Hp].
  split; [| split].
  - intros objs w err [pks objs'] w1 evs1 Hrun.
    assert (objs' = objs) as ->.
    { apply (RunInTransaction_loop_keeps _ _ (BatchCreate_closure_keeps db))
        in Hrun. exact Hrun. }
    split; [| exact (RunInTransaction_loop_hook_free _ _ Hc _ _ _ _ _ Hrun)].
    unfold BatchCreate. cbv [mbind M_bind mret M_ret]. rewrite Hrun.
    cbv beta iota zeta. rewrite app_nil_r. reflexivity.
  - intros objs w e w1 evs1 Hk.
    split; [| eapply buildKeys_only_keys; eassumption].
    unfold BatchPut. cbv [mbind M_bind mret M_ret]. rewrite Hk.
    cbv beta iota zeta. rewrite app_nil_r. reflexivity.
  - intros objs w keys w0 evs0 err [pks objs'] w1 evs1 Hk Hrun.
    assert (objs' = objs) as ->.
    { apply (RunInTransaction_loop_keeps _ _ (BatchPut_closure_keeps db))
        in Hrun. exact Hrun. }
    split.
    + unfold BatchPut. cbv [mbind M_bind mret M_ret]. rewrite Hk.
      cbv beta iota zeta. rewrite Hrun. cbv beta iota zeta.
      rewrite app_nil_r. reflexivity.
    + rewrite hook_calls_app.
      rewrite (hook_calls_keys _ (buildKeys_only_keys _ _ _ _ _ Hk)).
      exact (RunInTransaction_loop_hook_free _ _ Hp _ _ _ _ _ Hrun).
Qed.

(** X11: in whichever attempt of [Update]'s transaction [UpdateTx] returns
    a nil error, also after an abort, the closure returns nil and the
    commit follows.  When that attempt ends the loop (the commit reports
    anything but a conflict, or it reports the conflict and no attempt is
    left), [Update] returns the entity of [UpdateTx] with the error the
    commit reported, nil when it succeeded, and the commit is its last
    call. *)
Theorem Update_commits n obj upd crt w obj0 w0 (evs0 : list Ev)
    tx w1 o' w2 (evs : list Ev) r w3 :
  retried (Update_closure db upd crt) attempts obj w (S n) obj0 w0 evs0 ->
  newTransaction w0 = (inl tx, w1) ->
  UpdateTx db tx obj0 upd crt w1 = (Return (o', None), w2, evs) ->
  tx_Commit tx w2 = (r, w3) ->
  (r = inr ErrConcurrentTransaction -> n = 0%nat) ->
  Update db obj upd crt w =
    (Return (o', match r with inl _ => None | inr e => Some e end), w3,
     evs0 ++ EvNewTransaction (inl tx) :: evs ++ [EvCommit tx r]).
Proof.
  intros Hretried Hnew Hrun Hcommit Hlast.
  unfold Update, RunInTransaction. cbv [mbind M_bind mret M_ret].
  rewrite (RunInTransaction_loop_retried _ _ _ _ _ _ _ _ Hretried).
  cbn [RunInTransaction_loop]. unfold Update_closure.
  cbv [mbind M_bind call mret M_ret]. rewrite Hnew. cbv beta iota zeta.
  rewrite Hrun. cbv beta iota zeta. rewrite Hcommit. cbv beta iota zeta.
  destruct r as [cmt | e]; [cbn; rewrite !app_nil_r; reflexivity |].
  destruct e; try (cbn; rewrite !app_nil_r; reflexivity).
  rewrite (Hlast eq_refl). cbn. rewrite !app_nil_r. reflexivity.
Qed.

Lemma RunInTransaction_loop_committed {C : Type} n
    (f : Tx -> C -> Run (option error * C)) :
  forall c w cmt c' w' (evs : list Ev),
    RunInTransaction_loop n f c w = (Return (inl cmt, c'), w', evs) ->
    exists tx, last evs = Some (EvCommit tx (inl cmt)).
Proof.
  induction n as [|n IH]; intros c w cmt c' w' evs H.
  - cbn in H. cbv [mret M_ret] in H. simplify_eq.
  - cbn [RunInTransaction_loop] in H.
    cbv [mbind M_bind call mret M_ret] in H.
    destruct (newTransaction w) as [[tx | err] w1]; cbv beta iota zeta in H;
      [| simplify_eq].
    destruct (f tx c w1) as [[[[ferr c1]|] w2] evs2] eqn:Ef;
      cbv beta iota zeta in H; [| simplify_eq].
    destruct ferr as [err|].
    + destruct (tx_Rollback tx w2). cbv beta iota zeta in H. simplify_eq.
    + destruct (tx_Commit tx w2) as [[cmt1 | err] w3];
        cbv beta iota zeta in H.
      * simplify_eq. exists tx.
        rewrite app_nil_r, app_assoc, last_snoc. reflexivity.
      * destruct err; cbv beta iota zeta in H; try (simplify_eq; fail).
        destruct (RunInTransaction_loop n f c1 w3)
          as [[[[r4 c4]|] w4] evs4] eqn:E4; [| simplify_eq].
        simplify_eq. destruct (IH _ _ _ _ _ _ E4) as [tx4 Hl].
        exists tx4. rewrite !app_assoc. rewrite last_app, Hl. reflexivity.
Qed.

(** X12: [Update] and [BatchDelete] return a nil error only when the last
    thing they did was a commit that succeeded. *)
Theorem success_means_committed :
  (forall obj upd crt w o w' (evs : list Ev),
     Update db obj upd crt w = (Return (o, None), w', evs) ->
     exists tx cmt, last evs = Some (EvCommit tx (inl cmt))) /\
  (forall objs w w' (evs : list Ev),
     BatchDelete db objs w = (Return None, w', evs) ->
     exists tx cmt, last evs = Some (EvCommit tx (inl cmt))).
Proof.
  split.
  - intros obj upd crt w o w' evs H. unfold Update in H.
    cbv [mbind M_bind mret M_ret] in H.
    destruct (RunInTransaction _ _ _) as [[[[[cmt | e] o1]|] w1] evs1] eqn:E;
      cbv beta iota zeta in H; simplify_eq.
    apply RunInTransaction_loop_committed in E as [tx Hl].
    exists tx, cmt. rewrite app_nil_r. exact Hl.
  - intros objs w w' evs H. unfold BatchDelete in H.
    cbv [mbind M_bind mret M_ret] in H.
    destruct (RunInTransaction _ _ _) as [[[[[cmt | e] []]|] w1] evs1] eqn:E;
      cbv beta iota zeta in H; simplify_eq.
    apply RunInTransaction_loop_committed in E as [tx Hl].
    exists tx, cmt. rewrite app_nil_r. exact Hl.
Qed.
End WrapperRuns.

(** ** Runs of the operations outside a transaction *)

Ltac unfold_direct H :=
  cbv [mbind D_bind M_bind direct_call wrapped derive_key call mret D_ret
       M_ret direct_panic panic] in H.

Section DirectProperties.
Context {T W Tx PendingKey Commit : Type}.
Context `{!Object T W} `{!Client T W Tx PendingKey Commit}.
Context `{!DirectClient T W Tx}.
Variable db : DSEnt.
#[local] Abbreviation ns := (namespace db).
#[local] Abbreviation DEv := (@DirectEvent T Tx PendingKey Commit).

(** X16: [Create] returns the key the store reports for the insert (the
    first of the returned keys), not the derived one, and the key hook
    receives that same key; the key is returned also when the hook fails.
    A nil key comes with an error, and then neither did an insert succeed
    nor did the hook run.  [Create] panics exactly when the client reports
    success with no key. *)
Theorem Create_run obj w out w' (evs : list DEv) :
  Create db obj w = (out, w', evs) ->
  (forall k o err,
     out = Return (Some k, o, err) ->
     o = obj /\
     (exists key rest,
        evs = EvWrapper (EvBuildKey obj ns (inl key))
              :: EvClientMutate [NewInsert key obj] (inl (k :: rest))
              :: match LoadKey obj with
                 | Some _ => [EvWrapper (EvLoadKey obj k err)]
                 | None => []
                 end) /\
     (LoadKey obj = None -> err = None)) /\
  (forall o err,
     out = Return (None, o, err) ->
     o = obj /\ (exists e, err = Some e) /\
     (forall o' k' r, ~ In (EvWrapper (EvLoadKey o' k' r)) evs) /\
     (forall muts keys, ~ In (EvClientMutate muts (inl keys)) evs)) /\
  (out = Panic <-> exists muts, In (EvClientMutate muts (inl [])) evs).
Proof.
  intros H. unfold Create, ResolveKey in H. unfold_direct H.
  destruct (BuildKey obj ns w) as [[key | e] w0] eqn:Ek;
    cbv beta iota zeta in H;
    [destruct (client_Mutate _ w0) as [[[|k rest] | e] w1] eqn:Em;
       cbv beta iota zeta in H; cbn [lookup list_lookup] in H;
       [| destruct (LoadKey obj) as [p|] eqn:El;
          [destruct (p k w1) as [[e|] w2] eqn:Ep |];
          cbv beta iota zeta in H |] |].
  all: simplify_eq; cbn.
  all: split; [intros ck co cerr Hout; simplify_eq;
               repeat split; eauto; congruence |].
  all: split; [intros co cerr Hout; simplify_eq;
               (split; [reflexivity |]); (split; [eauto |]);
               split; repeat intro;
               match goal with Hin : _ \/ _ |- _ => in_events Hin end |].
  all: split; [intros Hp; simplify_eq; eauto
              | intros [cm Hin]; in_events Hin; simplify_eq].
  reflexivity.
Qed.

(** X17: [Put] never panics.  It returns the key the client's put
    reports, and the key hook receives that key; the key is returned also
    when the hook fails.  A nil key comes with an error, and then neither
    did a put succeed nor did the hook run. *)
Theorem Put_run obj w out w' (evs : list DEv) :
  Put db obj w = (out, w', evs) ->
  out <> Panic /\
  (forall k o err,
     out = Return (Some k, o, err) ->
     o = obj /\
     (exists key,
        evs = EvWrapper (EvBuildKey obj ns (inl key))
              :: EvClientPut key obj (inl k)
              :: match LoadKey obj with
                 | Some _ => [EvWrapper (EvLoadKey obj k err)]
                 | None => []
                 end) /\
     (LoadKey obj = None -> err = None)) /\
  (forall o err,
     out = Return (None, o, err) ->
     o = obj /\ (exists e, err = Some e) /\
     (forall o' k' r, ~ In (EvWrapper (EvLoadKey o' k' r)) evs) /\
     (forall key src k, ~ In (EvClientPut key src (inl k)) evs)).
Proof.
  intros H. unfold Put, ResolveKey in H. unfold_direct H.
  destruct (BuildKey obj ns w) as [[key | e] w0] eqn:Ek;
    cbv beta iota zeta in H;
    [destruct (client_Put _ _ w0) as [[k | e] w1] eqn:Em;
       cbv beta iota zeta in H;
       [destruct (LoadKey obj) as [p|] eqn:El;
          [destruct (p k w1) as [[e|] w2] eqn:Ep |];
          cbv beta iota zeta in H |] |].
  all: simplify_eq; cbn.
  all: split; [discriminate |].
  all: split; [intros ck co cerr Hout; simplify_eq;
               repeat split; eauto; congruence |].
  all: intros co cerr Hout; simplify_eq;
       (split; [reflexivity |]); (split; [eauto |]);
       split; repeat intro;
       match goal with Hin : _ \/ _ |- _ => in_events Hin end.
Qed.

Lemma Exists_run obj w out w' (evs : list DEv) :
  Exists db obj w = (out, w', evs) ->
  exists b err,
    out = Return (b, err) /\
    (b = true <->
       exists q k ks, In (EvClientGetAll q (inl (k :: ks))) evs) /\
    (b = true -> err = None) /\
    (forall q r,
       In (EvClientGetAll q r) evs ->
       exists key,
         In (EvWrapper (EvBuildKey obj ns (inl key))) evs /\
         q = mkQuery (Kind key) ns [("__key__", "=", key)] true 1 None /\
         err = match r with inl _ => None | inr e => Some e end) /\
    (forall e,
       In (EvWrapper (EvBuildKey obj ns (inr e))) evs ->
       err = Some e /\ forall q r, ~ In (EvClientGetAll q r) evs).
Proof.
  intros H. unfold Exists in H. unfold_direct H.
  destruct (BuildKey obj ns w) as [[key | e] w0] eqn:Ek;
    cbv beta iota zeta in H;
    [destruct (client_GetAll _ w0) as [[[|k ks] | e] w1] eqn:Eq;
       cbv beta iota zeta in H |].
  all: simplify_eq; cbn.
  all: eexists _, _; split; [reflexivity |].
  all: split; [split; [intros Hb; try discriminate Hb; eauto 8
                      | intros (cq & ck & cks & Hin); in_events Hin;
                        simplify_eq; reflexivity] |].
  all: split; [intros Hb; try discriminate Hb; reflexivity |].
  all: split; [intros cq cr Hin; in_events Hin; simplify_eq;
               try (eexists; split; [left; reflexivity |];
                    split; reflexivity)
              | intros ce Hin; in_events Hin; simplify_eq].
  split; [reflexivity |]. intros cq cr Hin; in_events Hin.
Qed.

Lemma ExistsTx_run tx obj w out w' (evs : list DEv) :
  ExistsTx db tx obj w = (out, w', evs) ->
  exists b err,
    out = Return (b, err) /\
    (b = true <->
       exists q k ks, In (EvClientGetAll q (inl (k :: ks))) evs) /\
    (b = true -> err = None) /\
    (forall q r,
       In (EvClientGetAll q r) evs ->
       exists key,
         In (EvWrapper (EvBuildKey obj ns (inl key))) evs /\
         q = Query_Transaction (exists_query db key) tx /\
         q = mkQuery (Kind key) ns [("__key__", "=", key)] true 1
               (Some tx) /\
         err = match r with inl _ => None | inr e => Some e end) /\
    (forall e,
       In (EvWrapper (EvBuildKey obj ns (inr e))) evs ->
       err = Some e /\ forall q r, ~ In (EvClientGetAll q r) evs).
Proof.
  intros H. unfold ExistsTx in H. unfold_direct H.
  destruct (BuildKey obj ns w) as [[key | e] w0] eqn:Ek;
    cbv beta iota zeta in H;
    [destruct (client_GetAll _ w0) as [[[|k ks] | e] w1] eqn:Eq;
       cbv beta iota zeta in H |].
  all: simplify_eq; cbn.
  all: eexists _, _; split; [reflexivity |].
  all: split; [split; [intros Hb; try discriminate Hb; eauto 8
                      | intros (cq & ck & cks & Hin); in_events Hin;
                        simplify_eq; reflexivity] |].
  all: split; [intros Hb; try discriminate Hb; reflexivity |].
  all: split; [intros cq cr Hin; in_events Hin; simplify_eq;
               try (eexists; split; [left; reflexivity |];
                    repeat split; reflexivity)
              | intros ce Hin; in_events Hin; simplify_eq].
  split; [reflexivity |]. intros cq cr Hin; in_events Hin.
Qed.
(** X18: [Exists] makes at most one query: keys only, limit 1, on the kind
    of the derived key and the namespace of the session, filtered on
    [__key__] equal to the derived key; [ExistsTx] binds the same query to
    the transaction.  The answer is true exactly when the query returns a
    key, and false with the error when key derivation or the query fails. *)
Theorem Exists_queries_the_key :
  (forall obj w out w' (evs : list DEv),
    Exists db obj w = (out, w', evs) ->
    exists b err,
      out = Return (b, err) /\
      (b = true <->
         exists q k ks, In (EvClientGetAll q (inl (k :: ks))) evs) /\
      (b = true -> err = None) /\
      (forall q r,
         In (EvClientGetAll q r) evs ->
         exists key,
           In (EvWrapper (EvBuildKey obj ns (inl key))) evs /\
           q = mkQuery (Kind key) ns [("__key__", "=", key)] true 1 None /\
           err = match r with inl _ => None | inr e => Some e end) /\
      (forall e,
         In (EvWrapper (EvBuildKey obj ns (inr e))) evs ->
         err = Some e /\ forall q r, ~ In (EvClientGetAll q r) evs)) /\
  (forall tx obj w out w' (evs : list DEv),
    ExistsTx db tx obj w = (out, w', evs) ->
    exists b err,
      out = Return (b, err) /\
      (b = true <->
         exists q k ks, In (EvClientGetAll q (inl (k :: ks))) evs) /\
      (b = true -> err = None) /\
      (forall q r,
         In (EvClientGetAll q r) evs ->
         exists key,
           In (EvWrapper (EvBuildKey obj ns (inl key))) evs /\
           q = Query_Transaction (exists_query db key) tx /\
           q = mkQuery (Kind key) ns [("__key__", "=", key)] true 1
                 (Some tx) /\
           err = match r with inl _ => None | inr e => Some e end) /\
      (forall e,
         In (EvWrapper (EvBuildKey obj ns (inr e))) evs ->
         err = Some e /\ forall q r, ~ In (EvClientGetAll q r) evs)).
Proof.
  split; [exact Exists_run | exact ExistsTx_run].
Qed.

(** X19: [BatchGet] never panics and returns the entities it was given.
    When a key cannot be derived it returns that error without a lookup;
    otherwise it derives all keys and then makes one batched lookup, whose
    error it returns as it is. *)
Theorem BatchGet_run objs w :
  exists err w' (evs : list DEv),
    BatchGet db objs w = (Return (objs, err), w', evs) /\
    ((exists keys,
        length keys = length objs /\
        evs = (EvWrapper <$>
                 zip_with (fun o k => EvBuildKey o ns (inl k)) objs keys)
              ++ [EvClientGetMulti keys objs err])
     \/
     (exists o e,
        err = Some e /\
        last evs = Some (EvWrapper (EvBuildKey o ns (inr e))) /\
        forall keys dst r, ~ In (EvClientGetMulti keys dst r) evs)).
Proof.
  unfold BatchGet. cbv [mbind D_bind direct_call wrapped mret D_ret].
  destruct (buildKeys (Tx := Tx) (PendingKey := PendingKey)
              (Commit := Commit) db objs w) as [[out w1] evs] eqn:E.
  apply buildKeys_trace in E
    as [(keys & -> & Hl & ->) | (e & keys & o & -> & Ho & ->)];
    cbv beta iota zeta.
  - destruct (client_GetMulti keys objs w1) as [[e|] w2];
      cbv beta iota zeta; eexists _, _, _; (split; [reflexivity |]);
      left; exists keys; rewrite app_nil_r; auto.
  - eexists _, _, _. split; [reflexivity |]. right. exists o, e.
    rewrite app_nil_r, fmap_app, last_app.
    split; [reflexivity |]. split; [reflexivity |].
    intros ks dst r Hin. apply in_app_or in Hin as [Hin | Hin].
    + apply list_elem_of_In, list_elem_of_fmap in Hin as (ev & Hev & _).
      discriminate Hev.
    + cbn in Hin. in_events Hin.
Qed.

End DirectProperties.

(** ** The kind registry *)

Module KindsProperties.
Import Kinds.

(** X20: with the mutex free, [RegisterKind] registers a kind that is not
    registered, leaving the other kinds as they were, and panics with
    "kind already registered: " and the name for one that is; either way
    the mutex is free afterwards. *)
Theorem RegisterKind_once name r :
  held r = false ->
  (registered r name = false ->
   exists r', RegisterKind name r = Returned r' /\
     held r' = false /\
     forall n, registered r' n = if decide (n = name) then true
                                 else registered r n) /\
  (registered r name = true ->
   RegisterKind name r =
     Panicked ("kind already registered: " ++ name) r).
Proof.
  intros Hh. unfold RegisterKind, registered. rewrite Hh. cbn. split.
  - intros Hn. rewrite Hn. eexists. split; [reflexivity |].
    split; [reflexivity |]. intros n. cbn.
    destruct (decide (n = name)) as [-> | Hne].
    + rewrite lookup_insert_eq. reflexivity.
    + rewrite lookup_insert_ne by congruence. reflexivity.
  - intros Hn. rewrite Hn. destruct r as [m h]. cbn in *. subst.
    reflexivity.
Qed.

Lemma RegisterKind_free name r :
  held r = false ->
  RegisterKind name r =
    if registered r name
    then Panicked ("kind already registered: " ++ name) r
    else Returned {| registeredKinds := <[name := true]> (registeredKinds r);
                     held := false |}.
Proof.
  intros Hh. unfold RegisterKind, registered. rewrite Hh. cbn.
  destruct r as [m h]. cbn in *. subst. reflexivity.
Qed.

Lemma registered_insert name r n :
  registered {| registeredKinds := <[name := true]> (registeredKinds r);
                held := false |} n =
    if decide (n = name) then true else registered r n.
Proof.
  unfold registered. cbn. destruct (decide (n = name)) as [-> | Hne].
  - rewrite lookup_insert_eq. reflexivity.
  - rewrite lookup_insert_ne by congruence. reflexivity.
Qed.

Lemma RegisterKinds_run names : forall r,
  held r = false ->
  (NoDup names /\ Forall (fun n => registered r n = false) names ->
   exists r', RegisterKinds names r = Returned r' /\ held r' = false /\
     forall n, registered r' n =
                 if decide (n ∈ names) then true else registered r n) /\
  (~ (NoDup names /\ Forall (fun n => registered r n = false) names) ->
   exists n r', In n names /\
     RegisterKinds names r =
       Panicked ("kind already registered: " ++ n) r' /\ held r' = false).
Proof.
  induction names as [|name rest IH]; intros r Hh.
  - split.
    + intros _. exists r. split; [reflexivity |]. split; [exact Hh |].
      intros n. rewrite decide_False by (apply not_elem_of_nil). reflexivity.
    + intros Hn. exfalso. apply Hn. split; constructor.
  - cbn [RegisterKinds]. rewrite (RegisterKind_free name r Hh).
    destruct (registered r name) eqn:Hreg.
    + split.
      * intros [_ Hf]. apply Forall_inv in Hf. congruence.
      * intros _. exists name, r. split; [left; reflexivity |]. auto.
    + pose proof (registered_insert name r) as Hr1.
      set (r1 := {| registeredKinds := <[name := true]> (registeredKinds r);
                    held := false |}) in *.
      assert (Hh1 : held r1 = false) by reflexivity. clearbody r1.
      destruct (IH r1 Hh1) as [IHok IHbad]. split.
      * intros [Hnd Hf]. apply NoDup_cons in Hnd as [Hnin Hnd].
        apply Forall_cons in Hf as [_ Hf].
        destruct IHok as (r' & -> & Hh' & Hr').
        { split; [exact Hnd |]. apply Forall_forall. intros n Hn.
          rewrite Hr1. rewrite decide_False by (intros ->; contradiction).
          rewrite Forall_forall in Hf. apply Hf, Hn. }
        exists r'. split; [reflexivity |]. split; [exact Hh' |].
        intros n. rewrite Hr', Hr1.
        destruct (decide (n ∈ rest)) as [Hin | Hin].
        -- rewrite decide_True by (right; exact Hin). reflexivity.
        -- destruct (decide (n = name)) as [-> | Hne].
           ++ rewrite decide_True by (left). reflexivity.
           ++ rewrite decide_False; [reflexivity |].
              intros Hc. apply elem_of_cons in Hc as [? | ?]; contradiction.
      * intros Hbad. destruct IHbad as (n & r' & Hin & -> & Hh').
        { intros [Hnd Hf]. apply Hbad. split.
          - apply NoDup_cons. split; [| exact Hnd].
            intros Hin. rewrite Forall_forall in Hf.
            specialize (Hf _ Hin). rewrite Hr1 in Hf.
            rewrite decide_True in Hf by reflexivity. discriminate.
          - apply Forall_cons. split; [exact Hreg |].
            apply Forall_forall. intros n Hn. rewrite Forall_forall in Hf.
            specialize (Hf _ Hn). rewrite Hr1 in Hf.
            destruct (decide (n = name)); [discriminate | exact Hf]. }
        exists n, r'. split; [right; exact Hin |]. auto.
Qed.

(** X21: from the empty registry, registering a list of kinds goes through
    exactly when the names are distinct; then the registered kinds are
    the names of the list.  Otherwise a name of the list panics, and the
    mutex is left free. *)
Theorem RegisterKinds_distinct names :
  (NoDup names <->
   exists r', RegisterKinds names initial = Returned r') /\
  (forall r', RegisterKinds names initial = Returned r' ->
     held r' = false /\
     forall n, registered r' n = bool_decide (n ∈ names)) /\
  (~ NoDup names ->
   exists n r', In n names /\
     RegisterKinds names initial =
       Panicked ("kind already registered: " ++ n) r' /\ held r' = false).
Proof.
  destruct (RegisterKinds_run names initial eq_refl) as [Hok Hbad].
  assert (Hinit : Forall (fun n => registered initial n = false) names).
  { apply Forall_forall. intros n _. reflexivity. }
  split; [split |]; [| | split].
  - intros Hnd. destruct Hok as (r' & E & _); eauto.
  - intros [r' E]. destruct (decide (NoDup names)) as [Hnd | Hnd];
      [exact Hnd |].
    destruct Hbad as (n & r1 & _ & E1 & _); [tauto |]. congruence.
  - intros r' E. destruct (decide (NoDup names)) as [Hnd | Hnd].
    + destruct Hok as (r1 & E1 & Hh & Hr); [tauto |].
      rewrite E in E1. injection E1 as <-. split; [exact Hh |].
      intros n. rewrite Hr.
      destruct (decide (n ∈ names)) as [Hin | Hin].
      * rewrite bool_decide_eq_true_2 by exact Hin. reflexivity.
      * rewrite bool_decide_eq_false_2 by exact Hin. reflexivity.
    + destruct Hbad as (n & r1 & _ & E1 & _); [tauto |]. congruence.
  - intros Hnd. apply Hbad. tauto.
Qed.
End KindsProperties.

(** ** More properties on the in-memory store *)

Module EmulatorMoreRuns.
Import Emulator EmulatorDirect.

#[local] Abbreviation Ev := (@Event nat unit Key unit).
#[local] Abbreviation DEv := (@DirectEvent nat unit Key unit).

(** Three spellings of one key. *)
Lemma cmpKey_equivalence_witness :
  cmpKey (key_of 1) (SetNS (IDKey "Test" 1 None) "Test") = true.
Proof.
  apply (proj2 (proj2 cmpKey_equivalence)
           (key_of 1) (mkKey "Test" 1 "" None "Test")
           (SetNS (IDKey "Test" 1 None) "Test")); reflexivity.
Defined.

(** The fallback refuses: its error is returned and nothing is written. *)
Lemma UpdateTx_callback_error_witness :
  fst (fst run_refused) = Return (1%nat, Some (ErrorNew "no default")) /\
  mutations_issued (snd run_refused) = [] /\
  forall o2 r, ~ In (EvUpdateFunc o2 r) (snd run_refused).
Proof.
  apply (proj1 (@UpdateTx_callback_error _ _ _ _ _ exampleObject storeClient
                  db tt 1%nat (Some (set_data 5)) (Some refuse) w0
                  (fst (fst run_refused)) (snd (fst run_refused))
                  (snd run_refused) ltac:(vm_compute; reflexivity))
           1%nat 1%nat (ErrorNew "no default")).
  vm_compute. right. right. left. reflexivity.
Defined.

(** A wrapped not-found error is an error like any other. *)
Lemma UpdateTx_read_error_witness :
  fst (fst run_wrapped) = Return (1%nat, Some (Wrapf "get" ErrNoSuchEntity)) /\
  mutations_issued (snd run_wrapped) = [] /\
  (forall o2 r, ~ In (EvCreateFunc o2 r) (snd run_wrapped)) /\
  (forall o2 r, ~ In (EvUpdateFunc o2 r) (snd run_wrapped)).
Proof.
  apply (@UpdateTx_read_error _ _ _ _ _ exampleObject wrappingClient
           db tt 1%nat (Some (set_data 5)) (Some (fresh 11)) w0
           (fst (fst run_wrapped)) (snd (fst run_wrapped))
           (snd run_wrapped) tt (key_of 11) 1%nat
           (Wrapf "get" ErrNoSuchEntity)).
  - vm_compute. reflexivity.
  - vm_compute. right. left. reflexivity.
  - discriminate.
Defined.

(** An entity without ID cannot derive its key. *)
Lemma UpdateTx_key_error_witness :
  fst (fst run_keyless) = Return (2%nat, Some (ErrorNew "missing id")) /\
  mutations_issued (snd run_keyless) = [] /\
  last (snd run_keyless) =
    Some (EvBuildKey 2%nat "Test" (inr (ErrorNew "missing id"))).
Proof.
  apply (@UpdateTx_key_error _ _ _ _ _ strictObject storeClient
           db tt 2%nat (Some (set_data 5)) None w0
           (fst (fst run_keyless)) (snd (fst run_keyless))
           (snd run_keyless)).
  - vm_compute. reflexivity.
  - vm_compute. left. reflexivity.
Defined.

(** The update of entity 1 is written under the key derived first. *)
Lemma UpdateTx_key_stable_witness :
  exists key o r,
    hd_error (snd run_updated) = Some (EvBuildKey 0%nat "Test" (inl key)) /\
    mutations_issued (snd run_updated) = [NewUpdate (key_of 1) 0%nat] /\
    mutation_key (NewUpdate (key_of 1) 0%nat) = key /\
    In (EvUpdateFunc o (mutation_src (NewUpdate (key_of 1) 0%nat), None))
       (snd run_updated) /\
    last (snd run_updated) =
      Some (EvTxMutate tt [NewUpdate (key_of 1) 0%nat] r) /\
    fst (fst run_updated) =
      Return (mutation_src (NewUpdate (key_of 1) 0%nat),
              match r with inl _ => None | inr e => Some e end) /\
    forall o2 k, In (EvBuildKey o2 "Test" (inl k)) (snd run_updated) ->
                 cmpKey key k = true.
Proof.
  apply (@UpdateTx_key_stable _ _ _ _ _ exampleObject storeClient
           db tt 0%nat (Some (set_data 5)) None w0
           (fst (fst run_updated)) (snd (fst run_updated))
           (snd run_updated) (NewUpdate (key_of 1) 0%nat)).
  - vm_compute. reflexivity.
  - vm_compute. left. reflexivity.
Defined.

(** Entity 1 is read, and the nil update function is called. *)
Lemma UpdateTx_nil_update_witness :
  fst (fst run_nil_update) = Panic /\
  mutations_issued (snd run_nil_update) = [].
Proof.
  destruct (@UpdateTx_nil_update _ _ _ _ _ exampleObject storeClient
              db tt 0%nat None None w0
              (fst (fst run_nil_update)) (snd (fst run_nil_update))
              (snd run_nil_update) ltac:(vm_compute; reflexivity))
    as [_ Hnil].
  destruct (Hnil eq_refl) as (Hm & _ & _ & Hp).
  split; [| exact Hm]. apply Hp. exists (key_of 1).
  split; [reflexivity |]. left. reflexivity.
Defined.

(** Creating entity 11 through [Update]: the first attempt commits. *)
Lemma Update_commits_witness :
  exists w3 (evs : list Ev),
    @Update _ _ _ _ _ exampleObject storeClient db 1%nat
      (Some (set_data 5)) (Some (fresh 11)) w0 =
      (Return (3%nat, None), w3,
       EvNewTransaction (inl tt) :: evs ++ [EvCommit tt (inl tt)]).
Proof.
  eexists _, _.
  eapply (@Update_commits _ _ _ _ _ exampleObject storeClient db
            2%nat 1%nat (Some (set_data 5)) (Some (fresh 11)) w0 1%nat w0 []
            tt w0 3%nat _ _ (inl tt)).
  - exact (retried_none _ _ _ _).
  - reflexivity.
  - vm_compute. reflexivity.
  - vm_compute. reflexivity.
  - discriminate.
Defined.

(** Creating entity 1 a second time in a batch: the insert is refused at
    commit, no key is returned and the hook does not run. *)
Lemma batch_failure_returns_no_keys_witness :
  exists w1 (evs1 : list Ev),
    @BatchCreate _ _ _ _ _ exampleObject storeClient db [0%nat] w0 =
      (Return ([], [0%nat], Some (ErrorNew "AlreadyExists")), w1, evs1) /\
    hook_calls evs1 = [].
Proof.
  eexists _, _.
  eapply (proj1 (@batch_failure_returns_no_keys _ _ _ _ _ exampleObject
                   storeClient db)).
  vm_compute. reflexivity.
Defined.

(** Deleting entity 1 in a batch. *)
Lemma success_means_committed_witness :
  exists tx cmt,
    last (snd (@BatchDelete _ _ _ _ _ exampleObject storeClient db
                 [0%nat] w0)) = Some (EvCommit tx (inl cmt) : Ev).
Proof.
  eapply (proj2 (@success_means_committed _ _ _ _ _ exampleObject
                   storeClient db)
            [0%nat] w0).
  vm_compute. reflexivity.
Defined.

(** The store completes the key, and the hook receives the completed key. *)
Lemma Create_run_witness :
  fst (fst run_create) = Return (Some (key_of 1001), 2%nat, None) /\
  exists key rest,
    snd run_create =
      [EvWrapper (EvBuildKey 2%nat "Test" (inl key));
       EvClientMutate [NewInsert key 2%nat] (inl (key_of 1001 :: rest));
       EvWrapper (EvLoadKey 2%nat (key_of 1001) None) : DEv].
Proof.
  split; [vm_compute; reflexivity |].
  apply (proj1 (@Create_run _ _ unit Key unit exampleObject directClient
                  db 2%nat w0
                  (fst (fst run_create)) (snd (fst run_create))
                  (snd run_create) ltac:(vm_compute; reflexivity))
           (key_of 1001) 2%nat None).
  vm_compute. reflexivity.
Defined.

(** Putting entity 1. *)
Lemma Put_run_witness :
  exists key,
    snd run_put =
      [EvWrapper (EvBuildKey 0%nat "Test" (inl key));
       EvClientPut key 0%nat (inl (key_of 1));
       EvWrapper (EvLoadKey 0%nat (key_of 1) None) : DEv].
Proof.
  apply (proj1 (proj2 (@Put_run _ _ unit Key unit exampleObject directClient
                  db 0%nat w0
                  (fst (fst run_put)) (snd (fst run_put))
                  (snd run_put) ltac:(vm_compute; reflexivity)))
           (key_of 1) 0%nat None).
  vm_compute. reflexivity.
Defined.

(** Entity 1 is in the store. *)
Lemma Exists_queries_the_key_witness :
  (exists b err, fst (fst run_exists) = Return (b, err) /\ b = true) /\
  (exists b err, fst (fst run_exists_tx) = Return (b, err) /\ b = true).
Proof.
  split.
  - destruct (proj1 (@Exists_queries_the_key _ _ unit Key unit exampleObject
                       directClient db)
                0%nat w0 (fst (fst run_exists)) (snd (fst run_exists))
                (snd run_exists) ltac:(vm_compute; reflexivity))
      as (b & err & Hout & Hb & _).
    exists b, err. split; [exact Hout |]. apply Hb.
    eexists _, _, _. vm_compute. right. left. reflexivity.
  - destruct (proj2 (@Exists_queries_the_key _ _ unit Key unit exampleObject
                       directClient db)
                tt 0%nat w0 (fst (fst run_exists_tx))
                (snd (fst run_exists_tx))
                (snd run_exists_tx) ltac:(vm_compute; reflexivity))
      as (b & err & Hout & Hb & _).
    exists b, err. split; [exact Hout |]. apply Hb.
    eexists _, _, _. vm_compute. right. left. reflexivity.
Defined.

(** The first registration of a kind. *)
Lemma RegisterKind_once_witness :
  exists r', Kinds.RegisterKind "Test" Kinds.initial = Kinds.Returned r' /\
    Kinds.held r' = false /\
    forall n, Kinds.registered r' n =
                if decide (n = "Test") then true
                else Kinds.registered Kinds.initial n.
Proof.
  apply (proj1 (KindsProperties.RegisterKind_once "Test" Kinds.initial
                  eq_refl)).
  reflexivity.
Defined.

End EmulatorMoreRuns.
